(** * Vibe_Roz agent server: chat session registry and streaming relay

    A shallow embedding of [src/index3.ts]: the agent alias table
    ([getAgent]), the process-wide session registry ([chatSessions],
    [getOrCreateChatSession]) and the HTTP handlers registered on it
    (POST /api/chat/start, POST /api/chat/message, POST /api/chat/stream,
    GET /api/chat/sessions, DELETE /api/chat/sessions/:sessionId).

    Modelling choices, all local to this file:
    - a JavaScript string is the [string] of its UTF-8 bytes; the fields of
      [req.body] are strings or absent;
    - the registry [chatSessions] (a JS [Map]) is a [gmap string ChatSession];
    - an exception is a [Throw] completion; the state reached before the
      throw is kept, as in JavaScript;
    - the agent runtime ([agent.chat], [chat.prompt], [.stream()]) and the
      clock ([Date.now]) are external: a chat handle is a record carrying the
      serial number of its construction (its object identity), and what the
      runtime and the clock answer during one request is given by an [Env];
      [agent.chat] itself is taken not to throw;
    - the Express response object [res] is a record of what was sent on the
      transport, with Node's rule that a write after [end] is refused;
    - a handler runs from the arrival of its request to its last write
      without another request in between: the events of a stream are
      delivered to the listeners as part of the request that opened it. *)

From Stdlib Require Import ZArith Ascii String List Bool Lia.
From stdpp Require Import base gmap strings pretty list fin_maps.

Open Scope string_scope.

(** ** Strings and JavaScript truthiness *)

(** [String.prototype.toLowerCase] on one ASCII code unit. *)
Definition lower_ascii (c : ascii) : ascii :=
  let n := nat_of_ascii c in
  if (65 <=? n)%nat && (n <=? 90)%nat then ascii_of_nat (n + 32) else c.

(** U+212A KELVIN SIGN, in UTF-8, followed by [s]. *)
Definition kelvin_then (s : string) : string :=
  String "226" (String "132" (String "170" s)).

(** U+0130 LATIN CAPITAL LETTER I WITH DOT ABOVE, in UTF-8, followed by
    [s]. *)
Definition dotted_capital_I_then (s : string) : string :=
  String "196" (String "176" s).

(** [String.prototype.toLowerCase].  Beside the letters A-Z, Unicode gives
    two code points a lowercase form that contains an ASCII character:
    U+212A becomes [k] and U+0130 becomes [i] followed by U+0307 (bytes 204,
    135).  On these and on ASCII the function below is exact.  Every other
    code point is lowercased to code points outside ASCII; its bytes are
    left as they are here, which the one caller, the [switch] of [getAgent]
    on ASCII labels, cannot tell apart. *)
Fixpoint toLowerCase (s : string) : string :=
  match s with
  | EmptyString => EmptyString
  | String c rest =>
      match rest with
      | EmptyString => String (lower_ascii c) EmptyString
      | String d tail =>
          if Ascii.eqb c "196" && Ascii.eqb d "176" then
            String "i" (String "204" (String "135" (toLowerCase tail)))
          else
            match tail with
            | EmptyString => String (lower_ascii c) (toLowerCase rest)
            | String e rest' =>
                if Ascii.eqb c "226" && Ascii.eqb d "132" && Ascii.eqb e "170"
                then String "k" (toLowerCase rest')
                else String (lower_ascii c) (toLowerCase rest)
            end
      end
  end.

(** A field of [req.body] that may be absent: [None] is [undefined]. *)
Definition truthy (v : option string) : bool :=
  match v with
  | None => false
  | Some s => negb (String.eqb s "")
  end.

(** [v || d] for an optional string [v] and a string [d]. *)
Definition or_else (v : option string) (d : string) : string :=
  match v with
  | Some s => if String.eqb s "" then d else s
  | None => d
  end.

(** ** Completions: normal return or thrown [Error] *)

Record JsError := { err_message : string }.

Inductive Completion (A : Type) :=
| Normal (a : A)
| Throw (e : JsError).
Arguments Normal {A} a.
Arguments Throw {A} e.

(** A computation over a mutable state [S]. *)
Definition JS (S A : Type) : Type := S -> S * Completion A.

Definition ret {S A} (a : A) : JS S A := fun s => (s, Normal a).

Definition throw {S A} (e : JsError) : JS S A := fun s => (s, Throw e).

Definition bind {S A B} (m : JS S A) (k : A -> JS S B) : JS S B :=
  fun s =>
    match m s with
    | (s', Normal a) => k a s'
    | (s', Throw e) => (s', Throw e)
    end.

(** [try { m } catch (error) { h error }] *)
Definition try_catch {S A} (m : JS S A) (h : JsError -> JS S A) : JS S A :=
  fun s =>
    match m s with
    | (s', Normal a) => (s', Normal a)
    | (s', Throw e) => h e s'
    end.

Definition get_state {S} : JS S S := fun s => (s, Normal s).

Definition modify {S} (f : S -> S) : JS S unit := fun s => (f s, Normal tt).

Notation "'let!' x ':=' m 'in' k" := (bind m (fun x => k))
  (at level 10, x name, m at level 100, k at level 200).
Notation "'do!' m 'in' k" := (bind m (fun _ => k))
  (at level 10, m at level 100, k at level 200).

(** ** Agents and chat handles *)

(** The two imported agent objects. *)
Inductive Agent := BookAssistantAgent | CryptoAssistantAgent.

(** The object returned by [agent.chat({ id, persist })].  [chat_ref] is the
    number of handles constructed before this one: two handles are the same
    object exactly when their [chat_ref] agree. *)
Record Chat := {
  chat_agent : Agent;
  chat_id : string;
  chat_persist : bool;
  chat_ref : nat
}.

(** A registry entry [{ chat, agentName }]. *)
Record ChatSession := {
  entry_chat : Chat;
  entry_agentName : string
}.

(** Process-wide state: the [chatSessions] map, together with two ghost
    components that record what the agent runtime has been asked to do:
    the number of chat handles constructed so far and the prompts issued
    (most recent first). *)
Record Server := {
  chatSessions : gmap string ChatSession;
  constructed : nat;
  prompted : list (Chat * string)
}.

Definition initial : Server :=
  {| chatSessions := ∅; constructed := 0; prompted := [] |}.

(** [getAgent], lines 21-32. *)
Definition getAgent (agentName : string) : Completion Agent :=
  let name := toLowerCase agentName in
  if String.eqb name "book" || String.eqb name "book-assistant" then
    Normal BookAssistantAgent
  else if String.eqb name "crypto" || String.eqb name "crypto-assistant" then
    Normal CryptoAssistantAgent
  else
    Throw {| err_message := "Unknown agent: " +:+ agentName |}.

(** [agent.chat({ id: chatSessionId, persist: true })]: constructs a fresh
    handle. *)
Definition agent_chat (agent : Agent) (id : string) : JS Server Chat :=
  fun w =>
    ({| chatSessions := chatSessions w;
        constructed := S (constructed w);
        prompted := prompted w |},
     Normal {| chat_agent := agent; chat_id := id; chat_persist := true;
               chat_ref := constructed w |}).

(** [chatSessions.set(key, entry)] *)
Definition chatSessions_set (key : string) (entry : ChatSession) : JS Server unit :=
  modify (fun w =>
    {| chatSessions := <[key := entry]> (chatSessions w);
       constructed := constructed w;
       prompted := prompted w |}).

(** [chatSessions.get(key).f]: reading a property of [undefined] throws a
    [TypeError]. *)
Definition chatSessions_get (key : string) : JS Server ChatSession :=
  fun w =>
    match chatSessions w !! key with
    | Some entry => (w, Normal entry)
    | None => (w, Throw {| err_message := "Cannot read properties of undefined" |})
    end.

Definition chatSessions_has (key : string) : JS Server bool :=
  fun w => (w, Normal (bool_decide (is_Some (chatSessions w !! key)))).

(** The object returned by [getOrCreateChatSession]. *)
Record Resolved := {
  r_sessionId : string;
  r_chat : Chat;
  r_agentName : string
}.

(** The template literal [`session-${agentName}-${Date.now()}`]. *)
Definition session_key (agentName : string) (now : Z) : string :=
  "session-" +:+ agentName +:+ "-" +:+ pretty now.

(** [getOrCreateChatSession], lines 34-51.  [now] is what [Date.now()]
    answers if line 36 evaluates it. *)
Definition getOrCreateChatSession (now : Z) (agentName : string)
    (sessionId : option string) : JS Server Resolved :=
  let! agent := (fun w => (w, getAgent agentName)) in
  let chatSessionId := or_else sessionId (session_key agentName now) in
  let! present := chatSessions_has chatSessionId in
  do! (if negb present then
         let! chat := agent_chat agent chatSessionId in
         chatSessions_set chatSessionId {| entry_chat := chat; entry_agentName := agentName |}
       else ret tt) in
  let! entry1 := chatSessions_get chatSessionId in
  let! entry2 := chatSessions_get chatSessionId in
  ret {| r_sessionId := chatSessionId;
         r_chat := entry_chat entry1;
         r_agentName := entry_agentName entry2 |}.

(** ** The response object

    What [res.json] is given.  The [timestamp] and [createdAt] fields, which
    only carry the wall-clock time of the answer, are left out. *)
Inductive Json :=
| J_error (error : string) (details : option string)
| J_started (sessionId agentName message : string)
| J_reply (sessionId agentName message response : string)
| J_sessions (sessions : list (string * string))
| J_deleted (message : string).

(** The payload of one [data: ...] frame of the event stream. *)
Inductive Frame :=
| F_start (sessionId agentName : string)
| F_content (content : string)
| F_tool_call (tool arguments : option string)
| F_end
| F_error (error : string).

Inductive Chunk :=
| Body (j : Json)
| Data (f : Frame).

(** Node's [http.ServerResponse] as Express hands it to a handler: the status
    and headers, whether the head has gone out, the chunks put on the
    transport in order, whether [end] was called, and the chunks of the
    [write] calls that came after [end], which the transport refuses
    (ERR_STREAM_WRITE_AFTER_END) and which never reach the client. *)
Record Res := {
  statusCode : nat;
  headers : list (string * string);
  headersSent : bool;
  sent : list Chunk;
  finished : bool;
  refused : list Chunk
}.

Definition fresh_res : Res :=
  {| statusCode := 200; headers := []; headersSent := false; sent := [];
     finished := false; refused := [] |}.

(** State of one request: the process-wide server and this request's [res]. *)
Record State := {
  srv : Server;
  res : Res
}.

Definition on_server {A} (m : JS Server A) : JS State A :=
  fun st =>
    let (w, c) := m (srv st) in ({| srv := w; res := res st |}, c).

Definition on_res {A} (m : JS Res A) : JS State A :=
  fun st =>
    let (r, c) := m (res st) in ({| srv := srv st; res := r |}, c).

Definition headers_sent_error : JsError :=
  {| err_message := "Cannot set headers after they are sent to the client" |}.

(** [res.status(code).json(body)]; [res.json(body)] is the case [code = 200]
    on a response whose status was not set. *)
Definition res_status_json (code : nat) (body : Json) : JS State unit :=
  on_res (fun r =>
    if headersSent r then (r, Throw headers_sent_error)
    else
      ({| statusCode := code;
          headers := [("Content-Type", "application/json")];
          headersSent := true;
          sent := sent r ++ [Body body];
          finished := true;
          refused := refused r |}, Normal tt)).

Definition res_json (body : Json) : JS State unit :=
  fun st => res_status_json (statusCode (res st)) body st.

(** [res.writeHead(code, headers)] *)
Definition res_writeHead (code : nat) (hs : list (string * string)) : JS State unit :=
  on_res (fun r =>
    if headersSent r then (r, Throw headers_sent_error)
    else
      ({| statusCode := code; headers := hs; headersSent := true;
          sent := sent r; finished := finished r; refused := refused r |},
       Normal tt)).

(** [res.write(`data: ${JSON.stringify(frame)}\n\n`)]: the first write sends
    the head implicitly; a write after [end] puts nothing on the transport. *)
Definition write_res (f : Frame) (r : Res) : Res :=
  if finished r then
    {| statusCode := statusCode r; headers := headers r;
       headersSent := headersSent r; sent := sent r;
       finished := true; refused := refused r ++ [Data f] |}
  else
    {| statusCode := statusCode r; headers := headers r;
       headersSent := true; sent := sent r ++ [Data f];
       finished := false; refused := refused r |}.

Definition res_write (f : Frame) : JS State unit :=
  on_res (fun r => (write_res f r, Normal tt)).

(** [res.end()] *)
Definition end_res (r : Res) : Res :=
  {| statusCode := statusCode r; headers := headers r;
     headersSent := true; sent := sent r;
     finished := true; refused := refused r |}.

Definition res_end : JS State unit :=
  on_res (fun r => (end_res r, Normal tt)).

(** ** The environment of one request *)

Inductive PromptOutcome :=
| Fulfilled (response : string)
| Rejected (error : JsError).

(** The events of [TLLMEvent] the relay listens to; [Other] stands for every
    event it has no listener for. *)
Inductive LLMEvent :=
| Content (content : string)
| ToolCall (name arguments : option string)
| End
| Error (error : JsError)
| Other (name : string).

Inductive StreamOutcome :=
| Opened (events : list LLMEvent)
| Refused (error : JsError).

(** [Date_now k] is the answer of the [k]-th evaluation of [Date.now()]
    during the request, counted from 0; [prompt c m] is how
    [await c.prompt(m)] settles; [stream c m] is how
    [await c.prompt(m).stream()] settles and, if it opens, the events the
    stream then emits, in order. *)
Record Env := {
  Date_now : nat -> Z;
  prompt : Chat -> string -> PromptOutcome;
  stream : Chat -> string -> StreamOutcome
}.

Definition log_prompt (c : Chat) (message : string) (w : Server) : Server :=
  {| chatSessions := chatSessions w;
     constructed := constructed w;
     prompted := (c, message) :: prompted w |}.

(** [await chat.prompt(message)] *)
Definition chat_prompt (env : Env) (c : Chat) (message : string) : JS Server string :=
  fun w =>
    match prompt env c message with
    | Fulfilled response => (log_prompt c message w, Normal response)
    | Rejected e => (log_prompt c message w, Throw e)
    end.

(** [await chat.prompt(message).stream()] *)
Definition chat_prompt_stream (env : Env) (c : Chat) (message : string)
    : JS Server (list LLMEvent) :=
  fun w =>
    match stream env c message with
    | Opened events => (log_prompt c message w, Normal events)
    | Refused e => (log_prompt c message w, Throw e)
    end.

(** ** Request bodies and handlers *)

(** [req.body] of the three POST routes; each field may be absent. *)
Record ReqBody := {
  req_sessionId : option string;
  req_message : option string;
  req_agentName : option string
}.

(** The string in a field already known to be truthy. *)
Definition text (v : option string) : string := default "" v.

(** POST /api/chat/start, lines 62-80. *)
Definition post_chat_start (env : Env) (body : ReqBody) : JS State unit :=
  try_catch
    (let agentName := req_agentName body in
     let sessionId := req_sessionId body in
     if negb (truthy agentName) then
       res_status_json 400 (J_error "Agent name is required" None)
     else
       let! r := on_server
                   (getOrCreateChatSession (Date_now env 0) (text agentName) sessionId) in
       res_json (J_started (r_sessionId r) (r_agentName r)
                   ("Chat session started with " +:+ r_agentName r)))
    (fun error => res_status_json 400 (J_error (err_message error) None)).

(** Lines 90-98 and, word for word, lines 123-131: the choice of the chat
    session, after which the handler goes on with [k]; [early] is the value
    of the block when it answers 400 and returns. *)
Definition with_chatSession {A} (env : Env) (body : ReqBody)
    (k : ChatSession -> JS State A) (early : A) : JS State A :=
  let sessionId := req_sessionId body in
  let agentName := req_agentName body in
  let! present := on_server (chatSessions_has (text sessionId)) in
  if truthy sessionId && present then
    let! chatSession := on_server (chatSessions_get (text sessionId)) in
    k chatSession
  else if truthy agentName then
    let! result := on_server
                     (getOrCreateChatSession (Date_now env 0) (text agentName) sessionId) in
    k {| entry_chat := r_chat result; entry_agentName := r_agentName result |}
  else
    do! res_status_json 400 (J_error "Either sessionId or agentName is required" None) in
    ret early.

(** POST /api/chat/message, lines 82-113. *)
Definition post_chat_message (env : Env) (body : ReqBody) : JS State unit :=
  try_catch
    (let sessionId := req_sessionId body in
     let message := req_message body in
     if negb (truthy message) then
       res_status_json 400 (J_error "Message is required" None)
     else
       with_chatSession env body (fun chatSession =>
         let! response := on_server
                            (chat_prompt env (entry_chat chatSession) (text message)) in
         res_json
           (J_reply
              (or_else sessionId
                 (session_key (entry_agentName chatSession) (Date_now env 1)))
              (entry_agentName chatSession)
              (text message)
              response)) tt)
    (fun error =>
       res_status_json 500
         (J_error "Failed to process message" (Some (err_message error)))).

Definition event_stream_headers : list (string * string) :=
  [("Content-Type", "text/event-stream");
   ("Cache-Control", "no-cache");
   ("Connection", "keep-alive");
   ("Access-Control-Allow-Origin", "*");
   ("Access-Control-Allow-Headers", "Cache-Control")].

(** The four listeners of lines 151-173, run on one emitted event. *)
Definition on_event (ev : LLMEvent) : JS State unit :=
  match ev with
  | Content content => res_write (F_content content)
  | ToolCall name arguments => res_write (F_tool_call name arguments)
  | End => do! res_write F_end in res_end
  | Error error => do! res_write (F_error (err_message error)) in res_end
  | Other _ => ret tt
  end.

Fixpoint relay (events : list LLMEvent) : JS State unit :=
  match events with
  | [] => ret tt
  | ev :: rest => do! on_event ev in relay rest
  end.

(** POST /api/chat/stream, lines 115-179.  The [try] block ends once the
    listeners are registered; its value here is the list of events the
    stream will emit to them (none when the block returned or threw before
    subscribing).  The listeners run afterwards, outside the [try]. *)
Definition post_chat_stream (env : Env) (body : ReqBody) : JS State unit :=
  let! events :=
    try_catch
      (let sessionId := req_sessionId body in
       let message := req_message body in
       if negb (truthy message) then
         do! res_status_json 400 (J_error "Message is required" None) in
         ret []
       else
         with_chatSession env body (fun chatSession =>
           do! res_writeHead 200 event_stream_headers in
           do! res_write
                 (F_start
                    (or_else sessionId
                       (session_key (entry_agentName chatSession) (Date_now env 1)))
                    (entry_agentName chatSession)) in
           on_server
             (chat_prompt_stream env (entry_chat chatSession) (text message))) [])
      (fun error =>
         do! res_write (F_error (err_message error)) in
         do! res_end in
         ret []) in
  relay events.

(** GET /api/chat/sessions, lines 181-189; the order of the listing (the
    [Map]'s insertion order) is not modelled. *)
Definition get_chat_sessions : JS State unit :=
  let! w := on_server get_state in
  res_json (J_sessions (map_to_list (entry_agentName <$> chatSessions w))).

Definition chatSessions_delete (key : string) : JS Server unit :=
  modify (fun w =>
    {| chatSessions := delete key (chatSessions w);
       constructed := constructed w;
       prompted := prompted w |}).

(** DELETE /api/chat/sessions/:sessionId, lines 191-200. *)
Definition delete_chat_session (sessionId : string) : JS State unit :=
  let! present := on_server (chatSessions_has sessionId) in
  if present then
    do! on_server (chatSessions_delete sessionId) in
    res_json (J_deleted "Session deleted successfully")
  else
    res_status_json 404 (J_error "Session not found" None).

(** ** The server as a transition system *)

Inductive Request :=
| PostChatStart (env : Env) (body : ReqBody)
| PostChatMessage (env : Env) (body : ReqBody)
| PostChatStream (env : Env) (body : ReqBody)
| GetChatSessions
| DeleteChatSession (sessionId : string).

Definition handler (rq : Request) : JS State unit :=
  match rq with
  | PostChatStart env body => post_chat_start env body
  | PostChatMessage env body => post_chat_message env body
  | PostChatStream env body => post_chat_stream env body
  | GetChatSessions => get_chat_sessions
  | DeleteChatSession sessionId => delete_chat_session sessionId
  end.

(** One request served on server state [w]: the new server state and what
    went out on the response. *)
Definition serve (rq : Request) (w : Server) : Server * Res :=
  let st := fst (handler rq {| srv := w; res := fresh_res |}) in
  (srv st, res st).

Fixpoint serve_all (rqs : list Request) (w : Server) : Server :=
  match rqs with
  | [] => w
  | rq :: rest => serve_all rest (fst (serve rq w))
  end.

(** * Definitions used to state the properties *)

(** ** Server states after a registry operation *)

(** The entry line 43 stores for a handle that line 39 has just constructed
    in state [w]. *)
Definition new_entry (agent : Agent) (key agentName : string) (w : Server)
    : ChatSession :=
  {| entry_chat := {| chat_agent := agent; chat_id := key;
                      chat_persist := true; chat_ref := constructed w |};
     entry_agentName := agentName |}.

(** [w] after one handle was constructed and stored under [key]. *)
Definition with_entry (key : string) (entry : ChatSession) (w : Server) : Server :=
  {| chatSessions := <[key := entry]> (chatSessions w);
     constructed := S (constructed w);
     prompted := prompted w |}.

(** [w] after [chatSessions.delete(key)]. *)
Definition without (key : string) (w : Server) : Server :=
  {| chatSessions := delete key (chatSessions w);
     constructed := constructed w;
     prompted := prompted w |}.

(** What one request can do to the registry: nothing, store one freshly
    constructed handle under a key that was free, or, for a DELETE request,
    remove the entry of the key it names. *)
Inductive registry_step (rq : Request) (w w' : Server) : Prop :=
| step_same :
    chatSessions w' = chatSessions w ->
    constructed w' = constructed w ->
    registry_step rq w w'
| step_create key agent agentName :
    key <> "" ->
    chatSessions w !! key = None ->
    getAgent agentName = Normal agent ->
    chatSessions w' = <[key := new_entry agent key agentName w]> (chatSessions w) ->
    constructed w' = S (constructed w) ->
    registry_step rq w w'
| step_delete key :
    rq = DeleteChatSession key ->
    is_Some (chatSessions w !! key) ->
    chatSessions w' = delete key (chatSessions w) ->
    constructed w' = constructed w ->
    registry_step rq w w'.

(** What holds of the registry in every state the server can reach: no entry
    sits under the empty key, a handle carries the key it is stored under and
    belongs to the agent its entry names, and distinct entries hold distinct
    handles, all constructed earlier. *)
Record registry_ok (w : Server) : Prop := {
  ok_key : forall k e, chatSessions w !! k = Some e -> k <> "";
  ok_id : forall k e, chatSessions w !! k = Some e -> chat_id (entry_chat e) = k;
  ok_agent : forall k e, chatSessions w !! k = Some e ->
    getAgent (entry_agentName e) = Normal (chat_agent (entry_chat e));
  ok_ref : forall k e, chatSessions w !! k = Some e ->
    chat_ref (entry_chat e) < constructed w;
  ok_distinct : forall k1 k2 e1 e2,
    chatSessions w !! k1 = Some e1 -> chatSessions w !! k2 = Some e2 ->
    chat_ref (entry_chat e1) = chat_ref (entry_chat e2) -> k1 = k2
}.

(** ** The handlers in direct style

    The outcome of each handler written as a plain function of the chat
    session it picked; the lemmas [message_stored], [message_agent],
    [stream_stored], [stream_agent] and [relay_eq] below prove that the
    handlers above compute exactly these. *)

(** The test [sessionId && chatSessions.has(sessionId)] of lines 91, 124. *)
Definition stored (body : ReqBody) (w : Server) : bool :=
  truthy (req_sessionId body) &&
  bool_decide (is_Some (chatSessions w !! text (req_sessionId body))).

(** The response left by [res.status(code).json(body)] on a fresh [res]. *)
Definition json_res (code : nat) (body : Json) : Res :=
  {| statusCode := code;
     headers := [("Content-Type", "application/json")];
     headersSent := true;
     sent := [Body body];
     finished := true;
     refused := [] |}.

(** Lines 100-112 for the chat session [cs], entered in state [w]. *)
Definition reply_of (env : Env) (body : ReqBody) (cs : ChatSession)
    (w : Server) : Server * Res :=
  let message := text (req_message body) in
  (log_prompt (entry_chat cs) message w,
   match prompt env (entry_chat cs) message with
   | Fulfilled response =>
       json_res 200
         (J_reply
            (or_else (req_sessionId body)
               (session_key (entry_agentName cs) (Date_now env 1)))
            (entry_agentName cs) message response)
   | Rejected e =>
       json_res 500 (J_error "Failed to process message" (Some (err_message e)))
   end).

(** What the listener of one emitted event does to the response. *)
Definition event_res (ev : LLMEvent) (r : Res) : Res :=
  match ev with
  | Content content => write_res (F_content content) r
  | ToolCall name arguments => write_res (F_tool_call name arguments) r
  | End => end_res (write_res F_end r)
  | Error error => end_res (write_res (F_error (err_message error)) r)
  | Other _ => r
  end.

Definition relay_res (events : list LLMEvent) (r : Res) : Res :=
  fold_left (fun r ev => event_res ev r) events r.

(** The response once the head and the start frame are out (lines 133-147). *)
Definition start_res (sessionId agentName : string) : Res :=
  {| statusCode := 200;
     headers := event_stream_headers;
     headersSent := true;
     sent := [Data (F_start sessionId agentName)];
     finished := false;
     refused := [] |}.

(** What the [catch] block of the stream handler does to the response
    (lines 176-177). *)
Definition caught_res (e : JsError) (r : Res) : Res :=
  end_res (write_res (F_error (err_message e)) r).

(** Lines 133-178 for the chat session [cs], entered in state [w]. *)
Definition stream_of (env : Env) (body : ReqBody) (cs : ChatSession)
    (w : Server) : Server * Res :=
  let message := text (req_message body) in
  let r0 :=
    start_res
      (or_else (req_sessionId body)
         (session_key (entry_agentName cs) (Date_now env 1)))
      (entry_agentName cs) in
  (log_prompt (entry_chat cs) message w,
   match stream env (entry_chat cs) message with
   | Opened events => relay_res events r0
   | Refused e => caught_res e r0
   end).

(** ** Frames of a stream *)

Definition is_start (f : Frame) : bool :=
  match f with F_start _ _ => true | _ => false end.

(** [end] and [error] frames are terminal. *)
Definition terminal (f : Frame) : bool :=
  match f with F_end | F_error _ => true | _ => false end.

(** The frames the events of a stream stand for, in order, up to and
    including the first [End] or [Error]. *)
Fixpoint frames_of (events : list LLMEvent) : list Frame :=
  match events with
  | [] => []
  | Content content :: rest => F_content content :: frames_of rest
  | ToolCall name arguments :: rest => F_tool_call name arguments :: frames_of rest
  | End :: _ => [F_end]
  | Error error :: _ => [F_error (err_message error)]
  | Other _ :: rest => frames_of rest
  end.

(** ** Letter casing and the alias table *)

(** The alias table of [getAgent]: the [case] labels and what they return. *)
Definition alias_table : list (string * Agent) :=
  [("book", BookAssistantAgent);
   ("book-assistant", BookAssistantAgent);
   ("crypto", CryptoAssistantAgent);
   ("crypto-assistant", CryptoAssistantAgent)].

Definition upper_ascii (c : ascii) : ascii :=
  let n := nat_of_ascii c in
  if (97 <=? n)%nat && (n <=? 122)%nat then ascii_of_nat (n - 32) else c.

(** [recased s t]: [s] and [t] are the same string up to the casing of their
    letters, where the Kelvin sign counts, as in Unicode, as a capital of
    the letter k. *)
Inductive recased : string -> string -> Prop :=
| recased_nil : recased EmptyString EmptyString
| recased_same c s t : recased s t -> recased (String c s) (String c t)
| recased_up c s t : recased s t -> recased (String (upper_ascii c) s) (String c t)
| recased_down c s t : recased s t -> recased (String c s) (String (upper_ascii c) t)
| recased_kelvin c s t :
    lower_ascii c = "k"%char -> recased s t ->
    recased (kelvin_then s) (String c t).

(** The bytes of ASCII characters. *)
Definition ascii_byte (c : ascii) : bool := (nat_of_ascii c <? 128)%nat.

Fixpoint ascii_only (s : string) : bool :=
  match s with
  | EmptyString => true
  | String c rest => ascii_byte c && ascii_only rest
  end.

(** ** Concrete requests used to run the handlers *)

Definition body_of (sessionId message agentName : option string) : ReqBody :=
  {| req_sessionId := sessionId; req_message := message;
     req_agentName := agentName |}.

(** A clock that advances by one millisecond between two readings, a runtime
    that answers every prompt, and a stream that goes on emitting after its
    end event. *)
Definition ticking_env : Env :=
  {| Date_now := fun k => (1000 + Z.of_nat k)%Z;
     prompt := fun _ _ => Fulfilled "hello";
     stream := fun _ _ =>
       Opened [Content "a"; ToolCall (Some "price") None; End;
               Content "b"; Error {| err_message := "late" |}] |}.

(** A runtime that fails every prompt. *)
Definition failing_env : Env :=
  {| Date_now := fun k => (1000 + Z.of_nat k)%Z;
     prompt := fun _ _ => Rejected {| err_message := "model overloaded" |};
     stream := fun _ _ => Refused {| err_message := "model overloaded" |} |}.

(** The server after POST /api/chat/start with
    [{ agentName: "book", sessionId: "s1" }]. *)
Definition server_s1 : Server :=
  serve_all [PostChatStart ticking_env (body_of (Some "s1") None (Some "book"))]
    initial.

Definition entry_s1 : ChatSession :=
  {| entry_chat := {| chat_agent := BookAssistantAgent; chat_id := "s1";
                      chat_persist := true; chat_ref := 0 |};
     entry_agentName := "book" |}.

(** ** The routes beside the chat routes *)

(** One element of the array GET /api/agents answers with (lines 55-58). *)
Record AgentInfo := {
  info_id : string;
  info_name : string;
  info_description : string
}.

(** The array literal of lines 55-58, which the handler passes to
    [res.json] under the key [agents]. *)
Definition agents_listing : list AgentInfo :=
  [{| info_id := "book"; info_name := "Book Assistant";
      info_description := "Helpful assistant for book-related queries" |};
   {| info_id := "crypto"; info_name := "Crypto Assistant";
      info_description := "Assistant for cryptocurrency information" |}].

(** ** Definitions for the further properties *)

(** [body] with its [sessionId] field replaced. *)
Definition set_sessionId (v : option string) (body : ReqBody) : ReqBody :=
  {| req_sessionId := v;
     req_message := req_message body;
     req_agentName := req_agentName body |}.

(** The events whose listeners call [res.end()]. *)
Definition ends_stream (ev : LLMEvent) : bool :=
  match ev with End | Error _ => true | _ => false end.

(** The frame the listener of an event hands to [res.write], if the event
    has a listener. *)
Definition frame_of (ev : LLMEvent) : option Frame :=
  match ev with
  | Content content => Some (F_content content)
  | ToolCall name arguments => Some (F_tool_call name arguments)
  | End => Some F_end
  | Error error => Some (F_error (err_message error))
  | Other _ => None
  end.

(** The frames of the events that come after the first [End] or [Error]. *)
Fixpoint late_frames (events : list LLMEvent) : list Frame :=
  match events with
  | [] => []
  | ev :: rest => if ends_stream ev then omap frame_of rest else late_frames rest
  end.

(** Every chunk the handler handed to the response, in the order of the
    calls: a write lands in [sent] while the response is open and in
    [refused] once it is ended, and an ended response stays ended. *)
Definition issued (r : Res) : list Chunk := (sent r ++ refused r)%list.

Definition terminal_chunk (ch : Chunk) : bool :=
  match ch with
  | Data f => terminal f
  | Body _ => false
  end.

(** The status codes a route answers with. *)
Definition status_codes (rq : Request) : list nat :=
  match rq with
  | PostChatStart _ _ => [200; 400]
  | PostChatMessage _ _ => [200; 400; 500]
  | PostChatStream _ _ => [200; 400]
  | GetChatSessions => [200]
  | DeleteChatSession _ => [200; 404]
  end.

Definition is_stream_route (rq : Request) : bool :=
  match rq with PostChatStream _ _ => true | _ => false end.

(** * Properties *)

(** ** Unfolding the handlers *)

Ltac js_unfold :=
  unfold serve, handler, post_chat_start, post_chat_message, post_chat_stream,
    get_chat_sessions, delete_chat_session, with_chatSession,
    getOrCreateChatSession, chat_prompt, chat_prompt_stream, log_prompt,
    res_json, res_status_json, res_writeHead, res_write, res_end,
    chatSessions_has, chatSessions_get, chatSessions_set, chatSessions_delete,
    agent_chat, on_server, on_res, try_catch, bind, ret, throw, modify,
    get_state in *.

Ltac handler_unfold :=
  unfold serve, handler, post_chat_start, post_chat_message, post_chat_stream,
    get_chat_sessions, delete_chat_session, with_chatSession,
    chat_prompt, chat_prompt_stream, log_prompt,
    res_json, res_status_json, res_writeHead, res_write, res_end,
    chatSessions_has, chatSessions_get, chatSessions_delete,
    on_server, on_res, try_catch, bind, ret, throw, modify,
    get_state in *.

Ltac message_start Hm :=
  cbn [handler]; unfold post_chat_message, try_catch; cbv zeta;
  rewrite Hm; cbn [negb].

Ltac stream_start Hm :=
  cbn [handler]; unfold post_chat_stream; unfold bind at 1;
  unfold try_catch; cbv zeta; rewrite Hm; cbn [negb].

(** ** Strings *)

Lemma truthy_Some (v : option string) :
  truthy v = true -> exists s, v = Some s /\ s <> "".
Proof.
  destruct v as [s|]; simpl; [|discriminate].
  destruct (String.eqb_spec s ""); simpl; [discriminate|]. eauto.
Qed.

Lemma truthy_Some_ne (s : string) : s <> "" -> truthy (Some s) = true.
Proof.
  intros H. simpl. destruct (String.eqb_spec s ""); [contradiction|reflexivity].
Qed.

Lemma or_else_falsy (v : option string) (d : string) :
  truthy v = false -> or_else v d = d.
Proof.
  destruct v as [s|]; simpl; [|reflexivity].
  destruct (String.eqb s ""); simpl; [reflexivity|discriminate].
Qed.

Lemma session_key_nonempty (a : string) (now : Z) : session_key a now <> "".
Proof. unfold session_key. simpl. discriminate. Qed.

Lemma or_else_nonempty (v : option string) (a : string) (now : Z) :
  or_else v (session_key a now) <> "".
Proof.
  destruct v as [s|]; simpl; [|apply session_key_nonempty].
  destruct (String.eqb_spec s ""); [apply session_key_nonempty|assumption].
Qed.

Lemma session_key_inj (a : string) (t1 t2 : Z) :
  session_key a t1 = session_key a t2 -> t1 = t2.
Proof.
  unfold session_key. intros H.
  apply (inj (String.app "session-")) in H.
  apply (inj (String.app a)) in H.
  apply (inj (String.app "-")) in H.
  by apply (inj pretty) in H.
Qed.

Lemma cons_neq_self {A} (x : A) (l : list A) : l <> x :: l.
Proof. intros H. apply (f_equal length) in H. simpl in H. lia. Qed.

(** ** Letter casing *)

Lemma lower_upper_ascii c : lower_ascii (upper_ascii c) = lower_ascii c.
Proof. destruct c as [[] [] [] [] [] [] [] []]; vm_compute; reflexivity. Qed.

Lemma lower_ascii_cases c :
  lower_ascii c = c \/ c = upper_ascii (lower_ascii c).
Proof.
  destruct c as [[] [] [] [] [] [] [] []]; vm_compute;
    first [left; reflexivity|right; reflexivity].
Qed.

Lemma ascii_byte_upper c : ascii_byte (upper_ascii c) = ascii_byte c.
Proof. destruct c as [[] [] [] [] [] [] [] []]; vm_compute; reflexivity. Qed.

(** How [toLowerCase] takes a string apart. *)
Lemma toLowerCase_String c rest :
  (exists rest', String c rest = kelvin_then rest' /\
     toLowerCase (String c rest) = String "k" (toLowerCase rest')) \/
  (exists tail, String c rest = dotted_capital_I_then tail /\
     toLowerCase (String c rest) =
       String "i" (String "204" (String "135" (toLowerCase tail)))) \/
  toLowerCase (String c rest) = String (lower_ascii c) (toLowerCase rest).
Proof.
  destruct rest as [|d tail]; [by right; right|]. cbn [toLowerCase].
  destruct (Ascii.eqb_spec c "196") as [->|Hc1]; cbn [andb].
  - destruct (Ascii.eqb_spec d "176") as [->|Hd1]; [right; left; by exists tail|].
    destruct tail as [|e rest']; by right; right.
  - destruct tail as [|e rest']; [by right; right|].
    destruct (Ascii.eqb_spec c "226") as [->|Hc2]; cbn [andb]; [|by right; right].
    destruct (Ascii.eqb_spec d "132") as [->|Hd2]; cbn [andb]; [|by right; right].
    destruct (Ascii.eqb_spec e "170") as [->|He2]; [|by right; right].
    left. by exists rest'.
Qed.

Lemma toLowerCase_ascii_head c rest :
  ascii_byte c = true ->
  toLowerCase (String c rest) = String (lower_ascii c) (toLowerCase rest).
Proof.
  intros Hc.
  destruct (toLowerCase_String c rest) as [(r & [= -> _] & _)|[(r & [= -> _] & _)|H]];
    [discriminate..|exact H].
Qed.

Lemma toLowerCase_kelvin s :
  toLowerCase (kelvin_then s) = String "k" (toLowerCase s).
Proof. reflexivity. Qed.

Lemma recased_toLowerCase s t :
  ascii_only t = true -> recased s t -> toLowerCase s = toLowerCase t.
Proof.
  intros Ht Hre. induction Hre as [|c s t _ IH|c s t _ IH|c s t _ IH|c s t Hk _ IH];
    [done|..]; cbn [ascii_only] in Ht; apply andb_prop in Ht as [Hc Ht].
  - rewrite !toLowerCase_ascii_head by done. by rewrite IH.
  - rewrite !toLowerCase_ascii_head by (by rewrite ?ascii_byte_upper).
    by rewrite lower_upper_ascii, IH.
  - rewrite ascii_byte_upper in Hc.
    rewrite !toLowerCase_ascii_head by (by rewrite ?ascii_byte_upper).
    by rewrite lower_upper_ascii, IH.
  - rewrite toLowerCase_kelvin, toLowerCase_ascii_head by done.
    by rewrite Hk, IH.
Qed.

Lemma recased_lowered_upto n s t :
  String.length s <= n -> ascii_only t = true ->
  toLowerCase s = t -> recased s t.
Proof.
  revert s t. induction n as [|n IH]; intros s t Hlen Ht Heq.
  - destruct s; [|simpl in Hlen; lia]. subst t. constructor.
  - destruct s as [|c rest]; [subst t; constructor|].
    destruct (toLowerCase_String c rest)
      as [(rest' & Hs & Hl)|[(tail & Hs & Hl)|Hl]]; rewrite Hl in Heq; subst t.
    + assert (Hlen' : String.length rest' <= n).
      { injection Hs as _ ->. simpl in Hlen. lia. }
      rewrite Hs. apply recased_kelvin; [reflexivity|].
      apply IH; [done| |done].
      cbn [ascii_only] in Ht. by apply andb_prop in Ht as [_ Ht].
    + simpl in Ht. discriminate.
    + cbn [ascii_only] in Ht. apply andb_prop in Ht as [_ Ht].
      assert (Hrest : recased rest (toLowerCase rest)).
      { apply IH; [simpl in Hlen; lia|done..]. }
      destruct (lower_ascii_cases c) as [->|Hc].
      * by constructor.
      * rewrite Hc at 1. by constructor.
Qed.

Lemma recased_lowered s t :
  ascii_only t = true -> toLowerCase s = t -> recased s t.
Proof. by apply (recased_lowered_upto (String.length s)). Qed.

Lemma alias_table_lowercase alias agent :
  In (alias, agent) alias_table ->
  ascii_only alias = true /\ toLowerCase alias = alias.
Proof.
  simpl. intros [[= <- <-]|[[= <- <-]|[[= <- <-]|[[= <- <-]|[]]]]]; by split.
Qed.

Lemma getAgent_alias name alias agent :
  In (alias, agent) alias_table -> toLowerCase name = alias ->
  getAgent name = Normal agent.
Proof.
  unfold getAgent. intros Hin ->. simpl in Hin.
  destruct Hin as [[= <- <-]|[[= <- <-]|[[= <- <-]|[[= <- <-]|[]]]]];
    reflexivity.
Qed.

Lemma getAgent_unknown name :
  (forall alias agent, In (alias, agent) alias_table -> toLowerCase name <> alias) ->
  getAgent name = Throw {| err_message := "Unknown agent: " +:+ name |}.
Proof.
  intros H. unfold getAgent.
  destruct (String.eqb_spec (toLowerCase name) "book") as [E|_];
    [exfalso; eapply H; [|exact E]; simpl; eauto|].
  destruct (String.eqb_spec (toLowerCase name) "book-assistant") as [E|_];
    [exfalso; eapply H; [|exact E]; simpl; eauto|].
  destruct (String.eqb_spec (toLowerCase name) "crypto") as [E|_];
    [exfalso; eapply H; [|exact E]; simpl; eauto|].
  destruct (String.eqb_spec (toLowerCase name) "crypto-assistant") as [E|_];
    [exfalso; eapply H; [|exact E]; simpl; eauto 6|].
  reflexivity.
Qed.

Lemma recased_BoOk : recased "BoOk-Assistant" "book-assistant".
Proof.
  apply (recased_up "b"), recased_same, (recased_up "o"), recased_same,
    recased_same, (recased_up "a").
  repeat apply recased_same. constructor.
Qed.

Lemma not_recased_head c d s t :
  c <> d -> c <> upper_ascii d -> d <> upper_ascii c -> c <> "226"%char ->
  ~ recased (String c s) (String d t).
Proof. intros H1 H2 H3 H4 H. inversion H; subst; congruence. Qed.

Lemma recased_booK :
  recased (String "B" (String "o" (String "o" (kelvin_then "")))) "book".
Proof.
  apply (recased_up "b"), recased_same, recased_same.
  apply (recased_kelvin "k" "" ""); [reflexivity|constructor].
Qed.

(** ** The registry operations *)

Lemma getOrCreate_unknown now agentName sessionId w e :
  getAgent agentName = Throw e ->
  getOrCreateChatSession now agentName sessionId w = (w, Throw e).
Proof. intros H. js_unfold. by rewrite H. Qed.

Lemma getOrCreate_existing now agentName sessionId w agent entry :
  getAgent agentName = Normal agent ->
  chatSessions w !! or_else sessionId (session_key agentName now) = Some entry ->
  getOrCreateChatSession now agentName sessionId w =
    (w, Normal {| r_sessionId := or_else sessionId (session_key agentName now);
                  r_chat := entry_chat entry;
                  r_agentName := entry_agentName entry |}).
Proof.
  intros Ha Hl. js_unfold. rewrite Ha, Hl. simpl.
  rewrite Hl. simpl. rewrite Hl. reflexivity.
Qed.

Lemma getOrCreate_fresh now agentName sessionId w agent :
  getAgent agentName = Normal agent ->
  chatSessions w !! or_else sessionId (session_key agentName now) = None ->
  let key := or_else sessionId (session_key agentName now) in
  getOrCreateChatSession now agentName sessionId w =
    (with_entry key (new_entry agent key agentName w) w,
     Normal {| r_sessionId := key;
               r_chat := entry_chat (new_entry agent key agentName w);
               r_agentName := agentName |}).
Proof.
  intros Ha Hl key. js_unfold. rewrite Ha, Hl. simpl.
  rewrite lookup_insert_eq. simpl. rewrite lookup_insert_eq. reflexivity.
Qed.

Lemma getOrCreate_cases now agentName sessionId w :
  let key := or_else sessionId (session_key agentName now) in
  (exists e, getAgent agentName = Throw e /\
     getOrCreateChatSession now agentName sessionId w = (w, Throw e)) \/
  (exists agent entry, getAgent agentName = Normal agent /\
     chatSessions w !! key = Some entry /\
     getOrCreateChatSession now agentName sessionId w =
       (w, Normal {| r_sessionId := key; r_chat := entry_chat entry;
                     r_agentName := entry_agentName entry |})) \/
  (exists agent, getAgent agentName = Normal agent /\
     chatSessions w !! key = None /\
     getOrCreateChatSession now agentName sessionId w =
       (with_entry key (new_entry agent key agentName w) w,
        Normal {| r_sessionId := key;
                  r_chat := entry_chat (new_entry agent key agentName w);
                  r_agentName := agentName |})).
Proof.
  intros key. destruct (getAgent agentName) as [agent|e] eqn:Ha.
  - destruct (chatSessions w !! key) as [entry|] eqn:Hl.
    + right; left. exists agent, entry. repeat split; try done.
      by apply getOrCreate_existing with agent.
    + right; right. exists agent. repeat split; try done.
      by apply getOrCreate_fresh.
  - left. exists e. split; [done|]. by apply getOrCreate_unknown.
Qed.

(** ** The choice of the chat session (lines 90-98, 123-131) *)

Lemma stored_true body w sid entry :
  req_sessionId body = Some sid -> sid <> "" ->
  chatSessions w !! sid = Some entry ->
  stored body w = true.
Proof.
  intros Hb Hne Hl. unfold stored. rewrite Hb, truthy_Some_ne by done.
  simpl. rewrite Hl. done.
Qed.

Lemma stored_inv body w :
  stored body w = true ->
  exists sid entry, req_sessionId body = Some sid /\ sid <> "" /\
                    chatSessions w !! sid = Some entry.
Proof.
  unfold stored. intros [Ht Hp]%andb_prop.
  destruct (truthy_Some _ Ht) as (sid & Hb & Hne). rewrite Hb in Hp. simpl in Hp.
  apply bool_decide_eq_true_1 in Hp as [entry Hl]. eauto.
Qed.

Lemma with_chatSession_stored {A} env body (k : ChatSession -> JS State A)
    early w r sid entry :
  req_sessionId body = Some sid -> sid <> "" ->
  chatSessions w !! sid = Some entry ->
  with_chatSession env body k early {| srv := w; res := r |} =
    k entry {| srv := w; res := r |}.
Proof.
  intros Hb Hne Hl. pose proof (stored_true _ _ _ _ Hb Hne Hl) as Hst.
  unfold stored in Hst. handler_unfold. simpl. rewrite Hst.
  rewrite Hb. simpl. rewrite Hl. reflexivity.
Qed.

Lemma with_chatSession_agent {A} env body (k : ChatSession -> JS State A)
    early w r :
  stored body w = false -> truthy (req_agentName body) = true ->
  with_chatSession env body k early {| srv := w; res := r |} =
    match getOrCreateChatSession (Date_now env 0) (text (req_agentName body))
            (req_sessionId body) w with
    | (w', Normal result) =>
        k {| entry_chat := r_chat result; entry_agentName := r_agentName result |}
          {| srv := w'; res := r |}
    | (w', Throw e) => ({| srv := w'; res := r |}, Throw e)
    end.
Proof.
  intros Hst Ha. unfold stored in Hst. handler_unfold. simpl.
  rewrite Hst, Ha. cbn [srv res].
  destruct (getOrCreateChatSession _ _ _ w) as [w' [result|e]]; reflexivity.
Qed.

Lemma with_chatSession_missing {A} env body (k : ChatSession -> JS State A)
    early w :
  stored body w = false -> truthy (req_agentName body) = false ->
  with_chatSession env body k early {| srv := w; res := fresh_res |} =
    ({| srv := w;
        res := json_res 400 (J_error "Either sessionId or agentName is required" None) |},
     Normal early).
Proof.
  intros Hst Ha. unfold stored in Hst. handler_unfold. simpl.
  rewrite Hst, Ha. reflexivity.
Qed.

(** ** The handlers in direct style *)

Lemma serve_intro rq w w' r c :
  handler rq {| srv := w; res := fresh_res |} = ({| srv := w'; res := r |}, c) ->
  serve rq w = (w', r).
Proof. intros H. unfold serve. rewrite H. reflexivity. Qed.

Lemma message_empty env body w :
  truthy (req_message body) = false ->
  serve (PostChatMessage env body) w =
    (w, json_res 400 (J_error "Message is required" None)).
Proof.
  intros Hm. apply serve_intro with (Normal tt). message_start Hm. reflexivity.
Qed.

Lemma message_stored env body w sid entry :
  truthy (req_message body) = true ->
  req_sessionId body = Some sid -> sid <> "" ->
  chatSessions w !! sid = Some entry ->
  serve (PostChatMessage env body) w = reply_of env body entry w.
Proof.
  intros Hm Hb Hne Hl. apply serve_intro with (Normal tt). message_start Hm.
  rewrite (with_chatSession_stored _ _ _ _ _ _ _ _ Hb Hne Hl).
  handler_unfold. simpl.
  destruct (prompt env (entry_chat entry) (text (req_message body)));
    reflexivity.
Qed.

Lemma message_missing env body w :
  truthy (req_message body) = true ->
  stored body w = false -> truthy (req_agentName body) = false ->
  serve (PostChatMessage env body) w =
    (w, json_res 400 (J_error "Either sessionId or agentName is required" None)).
Proof.
  intros Hm Hst Ha. apply serve_intro with (Normal tt). message_start Hm.
  rewrite (with_chatSession_missing _ _ _ _ _ Hst Ha). reflexivity.
Qed.

Lemma message_agent env body w :
  truthy (req_message body) = true ->
  stored body w = false -> truthy (req_agentName body) = true ->
  serve (PostChatMessage env body) w =
    match getOrCreateChatSession (Date_now env 0) (text (req_agentName body))
            (req_sessionId body) w with
    | (w', Normal result) =>
        reply_of env body
          {| entry_chat := r_chat result; entry_agentName := r_agentName result |} w'
    | (w', Throw e) =>
        (w', json_res 500 (J_error "Failed to process message" (Some (err_message e))))
    end.
Proof.
  intros Hm Hst Ha.
  destruct (getOrCreateChatSession _ _ _ w) as [w' [result|e]] eqn:Hg;
    apply serve_intro with (Normal tt); message_start Hm;
    rewrite (with_chatSession_agent _ _ _ _ _ _ Hst Ha), Hg.
  - handler_unfold. simpl.
    destruct (prompt env (r_chat result) (text (req_message body)));
      reflexivity.
  - reflexivity.
Qed.

Lemma on_event_eq ev w r :
  on_event ev {| srv := w; res := r |} =
    ({| srv := w; res := event_res ev r |}, Normal tt).
Proof. destruct ev; reflexivity. Qed.

Lemma relay_eq events w r :
  relay events {| srv := w; res := r |} =
    ({| srv := w; res := relay_res events r |}, Normal tt).
Proof.
  revert r. induction events as [|ev rest IH]; intros r; [reflexivity|].
  cbn [relay]. unfold bind. rewrite on_event_eq. apply IH.
Qed.

Lemma stream_empty env body w :
  truthy (req_message body) = false ->
  serve (PostChatStream env body) w =
    (w, json_res 400 (J_error "Message is required" None)).
Proof.
  intros Hm. apply serve_intro with (Normal tt). stream_start Hm. reflexivity.
Qed.

Lemma stream_body_eq env body cs w :
  (let (s', c) :=
     (do! res_writeHead 200 event_stream_headers in
      do! res_write
            (F_start
               (or_else (req_sessionId body)
                  (session_key (entry_agentName cs) (Date_now env 1)))
               (entry_agentName cs)) in
      on_server (chat_prompt_stream env (entry_chat cs) (text (req_message body))))
       {| srv := w; res := fresh_res |} in
   match c with
   | Normal a => (s', Normal a)
   | Throw e =>
       (do! res_write (F_error (err_message e)) in
        do! res_end in ret []) s'
   end) =
  ({| srv := (stream_of env body cs w).1;
      res := match stream env (entry_chat cs) (text (req_message body)) with
             | Opened _ =>
                 start_res
                   (or_else (req_sessionId body)
                      (session_key (entry_agentName cs) (Date_now env 1)))
                   (entry_agentName cs)
             | Refused _ => (stream_of env body cs w).2
             end |},
   Normal match stream env (entry_chat cs) (text (req_message body)) with
          | Opened events => events
          | Refused _ => []
          end).
Proof.
  unfold stream_of. handler_unfold. simpl.
  destruct (stream env (entry_chat cs) (text (req_message body)));
    reflexivity.
Qed.

Lemma stream_stored env body w sid entry :
  truthy (req_message body) = true ->
  req_sessionId body = Some sid -> sid <> "" ->
  chatSessions w !! sid = Some entry ->
  serve (PostChatStream env body) w = stream_of env body entry w.
Proof.
  intros Hm Hb Hne Hl. apply serve_intro with (Normal tt). stream_start Hm.
  rewrite (with_chatSession_stored _ _ _ _ _ _ _ _ Hb Hne Hl).
  rewrite stream_body_eq. unfold stream_of. cbn [fst snd].
  destruct (stream env (entry_chat entry) (text (req_message body)));
    [apply relay_eq|reflexivity].
Qed.

Lemma stream_missing env body w :
  truthy (req_message body) = true ->
  stored body w = false -> truthy (req_agentName body) = false ->
  serve (PostChatStream env body) w =
    (w, json_res 400 (J_error "Either sessionId or agentName is required" None)).
Proof.
  intros Hm Hst Ha. apply serve_intro with (Normal tt). stream_start Hm.
  rewrite (with_chatSession_missing _ _ _ _ _ Hst Ha). reflexivity.
Qed.

Lemma stream_agent env body w :
  truthy (req_message body) = true ->
  stored body w = false -> truthy (req_agentName body) = true ->
  serve (PostChatStream env body) w =
    match getOrCreateChatSession (Date_now env 0) (text (req_agentName body))
            (req_sessionId body) w with
    | (w', Normal result) =>
        stream_of env body
          {| entry_chat := r_chat result; entry_agentName := r_agentName result |} w'
    | (w', Throw e) => (w', caught_res e fresh_res)
    end.
Proof.
  intros Hm Hst Ha.
  destruct (getOrCreateChatSession _ _ _ w) as [w' [result|e]] eqn:Hg;
    apply serve_intro with (Normal tt); stream_start Hm;
    rewrite (with_chatSession_agent _ _ _ _ _ _ Hst Ha), Hg.
  - rewrite stream_body_eq. unfold stream_of. cbn [fst snd entry_chat].
    destruct (stream env (r_chat result) (text (req_message body)));
      [apply relay_eq|reflexivity].
  - reflexivity.
Qed.

Lemma start_missing env body w :
  truthy (req_agentName body) = false ->
  serve (PostChatStart env body) w =
    (w, json_res 400 (J_error "Agent name is required" None)).
Proof.
  intros Ha. apply serve_intro with (Normal tt). cbn [handler].
  unfold post_chat_start, try_catch. cbv zeta. rewrite Ha. reflexivity.
Qed.

Lemma start_agent env body w :
  truthy (req_agentName body) = true ->
  serve (PostChatStart env body) w =
    match getOrCreateChatSession (Date_now env 0) (text (req_agentName body))
            (req_sessionId body) w with
    | (w', Normal r) =>
        (w', json_res 200
               (J_started (r_sessionId r) (r_agentName r)
                  ("Chat session started with " +:+ r_agentName r)))
    | (w', Throw e) => (w', json_res 400 (J_error (err_message e) None))
    end.
Proof.
  intros Ha.
  destruct (getOrCreateChatSession _ _ _ w) as [w' [r|e]] eqn:Hg;
    apply serve_intro with (Normal tt); cbn [handler];
    unfold post_chat_start, try_catch; cbv zeta; rewrite Ha; cbn [negb];
    unfold bind, on_server; cbn [srv res]; rewrite Hg; reflexivity.
Qed.

Lemma delete_present sessionId w entry :
  chatSessions w !! sessionId = Some entry ->
  serve (DeleteChatSession sessionId) w =
    (without sessionId w, json_res 200 (J_deleted "Session deleted successfully")).
Proof.
  intros Hl. apply serve_intro with (Normal tt). handler_unfold. simpl.
  rewrite Hl. reflexivity.
Qed.

Lemma delete_absent sessionId w :
  chatSessions w !! sessionId = None ->
  serve (DeleteChatSession sessionId) w =
    (w, json_res 404 (J_error "Session not found" None)).
Proof.
  intros Hl. apply serve_intro with (Normal tt). handler_unfold. simpl.
  rewrite Hl. reflexivity.
Qed.

(** ** Every request is one registry step *)

Lemma getOrCreate_step rq now agentName sessionId w :
  registry_step rq w (getOrCreateChatSession now agentName sessionId w).1.
Proof.
  destruct (getOrCreate_cases now agentName sessionId w)
    as [(e & Ha & ->)|[(agent & entry & Ha & Hl & ->)|(agent & Ha & Hl & ->)]];
    cbn [fst]; try by apply step_same.
  eapply step_create; eauto using or_else_nonempty.
Qed.

Lemma registry_step_log rq w w' c m :
  registry_step rq w w' -> registry_step rq w (log_prompt c m w').
Proof.
  intros [Hs Hc|key agent an ? ? ? Hs Hc|key ? ? Hs Hc].
  - by apply step_same.
  - by eapply step_create.
  - by eapply step_delete.
Qed.

Lemma serve_registry_step rq w : registry_step rq w (serve rq w).1.
Proof.
  destruct rq as [env body|env body|env body| |sid].
  - destruct (truthy (req_agentName body)) eqn:Ha.
    + rewrite start_agent by done.
      pose proof (getOrCreate_step (PostChatStart env body) (Date_now env 0)
                    (text (req_agentName body)) (req_sessionId body) w) as Hg.
      by destruct (getOrCreateChatSession _ _ _ w) as [w' [r|e]].
    + rewrite start_missing by done. by apply step_same.
  - destruct (truthy (req_message body)) eqn:Hm;
      [|rewrite message_empty by done; by apply step_same].
    destruct (stored body w) eqn:Hst.
    + destruct (stored_inv _ _ Hst) as (sid & entry & Hb & Hne & Hl).
      rewrite (message_stored _ _ _ _ _ Hm Hb Hne Hl). by apply step_same.
    + destruct (truthy (req_agentName body)) eqn:Ha;
        [|rewrite message_missing by done; by apply step_same].
      rewrite message_agent by done.
      pose proof (getOrCreate_step (PostChatMessage env body) (Date_now env 0)
                    (text (req_agentName body)) (req_sessionId body) w) as Hg.
      destruct (getOrCreateChatSession _ _ _ w) as [w' [r|e]]; [|done].
      by apply registry_step_log.
  - destruct (truthy (req_message body)) eqn:Hm;
      [|rewrite stream_empty by done; by apply step_same].
    destruct (stored body w) eqn:Hst.
    + destruct (stored_inv _ _ Hst) as (sid & entry & Hb & Hne & Hl).
      rewrite (stream_stored _ _ _ _ _ Hm Hb Hne Hl). by apply step_same.
    + destruct (truthy (req_agentName body)) eqn:Ha;
        [|rewrite stream_missing by done; by apply step_same].
      rewrite stream_agent by done.
      pose proof (getOrCreate_step (PostChatStream env body) (Date_now env 0)
                    (text (req_agentName body)) (req_sessionId body) w) as Hg.
      destruct (getOrCreateChatSession _ _ _ w) as [w' [r|e]]; [|done].
      by apply registry_step_log.
  - by apply step_same.
  - destruct (chatSessions w !! sid) as [entry|] eqn:Hl.
    + rewrite (delete_present _ _ _ Hl). by eapply step_delete.
    + rewrite (delete_absent _ _ Hl). by apply step_same.
Qed.

(** ** The registry invariant *)

Lemma registry_ok_initial : registry_ok initial.
Proof. split; intros *; simpl; rewrite ?lookup_empty; discriminate. Qed.

Lemma registry_step_ok rq w w' :
  registry_step rq w w' -> registry_ok w -> registry_ok w'.
Proof.
  intros Hstep [Hk Hi Ha Hr Hd].
  destruct Hstep as [Hs Hc|key agent an Hne Hnone Hag Hs Hc|key _ _ Hs Hc].
  - split; intros *; rewrite Hs, ?Hc; eauto.
  - assert (Hnew : forall k e, chatSessions w' !! k = Some e ->
              (k = key /\ e = new_entry agent key an w) \/
              (k <> key /\ chatSessions w !! k = Some e)).
    { intros k e. rewrite Hs. destruct (decide (key = k)) as [->|Hkk].
      - rewrite lookup_insert_eq. intros [= <-]. by left.
      - rewrite lookup_insert_ne by done. intros. right. split; congruence. }
    split.
    + intros k e [[-> ->]|[_ H]]%Hnew; eauto.
    + intros k e [[-> ->]|[_ H]]%Hnew; eauto.
    + intros k e [[-> ->]|[_ H]]%Hnew; eauto.
    + intros k e [[-> ->]|[_ H]]%Hnew; rewrite Hc; simpl; [lia|].
      apply Hr in H. lia.
    + intros k1 k2 e1 e2 [[-> ->]|[_ H1]]%Hnew [[-> ->]|[_ H2]]%Hnew;
        simpl; intros Href; try done.
      * apply Hr in H2. lia.
      * apply Hr in H1. lia.
      * eauto.
  - assert (Hold : forall k e, chatSessions w' !! k = Some e ->
              chatSessions w !! k = Some e).
    { intros k e. rewrite Hs. intros H. apply lookup_delete_Some in H. tauto. }
    split; intros *; rewrite ?Hc; eauto.
Qed.

Lemma serve_ok rq w : registry_ok w -> registry_ok (serve rq w).1.
Proof. apply registry_step_ok with rq, serve_registry_step. Qed.

Lemma serve_all_ok rqs w : registry_ok w -> registry_ok (serve_all rqs w).
Proof.
  revert w. induction rqs as [|rq rest IH]; intros w Hw; simpl; [done|].
  by apply IH, serve_ok.
Qed.

(** An entry stays as it is until a DELETE request names its key. *)
Lemma serve_keeps_entry rq w sid entry :
  chatSessions w !! sid = Some entry ->
  rq <> DeleteChatSession sid ->
  chatSessions (serve rq w).1 !! sid = Some entry.
Proof.
  intros Hl Hrq.
  destruct (serve_registry_step rq w) as [Hs _|key ? ? _ Hnone _ Hs _|key Heq _ Hs _];
    rewrite Hs.
  - done.
  - rewrite lookup_insert_ne; [done|congruence].
  - rewrite lookup_delete_ne; [done|congruence].
Qed.

Lemma serve_all_keeps_entry rqs w sid entry :
  chatSessions w !! sid = Some entry ->
  ~ In (DeleteChatSession sid) rqs ->
  chatSessions (serve_all rqs w) !! sid = Some entry.
Proof.
  revert w. induction rqs as [|rq rest IH]; intros w Hl Hnot; simpl; [done|].
  apply IH.
  - apply serve_keeps_entry; [done|]. intros ->. apply Hnot. by left.
  - intros Hin. apply Hnot. by right.
Qed.

Lemma server_s1_ok : registry_ok server_s1.
Proof. apply serve_all_ok, registry_ok_initial. Qed.

Lemma server_s1_entry : chatSessions server_s1 !! "s1" = Some entry_s1.
Proof. vm_compute. reflexivity. Qed.

(** ** Which handle a request was dispatched to *)

(** The chat session picked by lines 90-98 (123-131) when the agent name is
    used: the outcome of a successful [getOrCreateChatSession]. *)
Lemma getOrCreate_picks now agentName sessionId w w1 result :
  registry_ok w ->
  getOrCreateChatSession now agentName sessionId w = (w1, Normal result) ->
  let cs := {| entry_chat := r_chat result;
               entry_agentName := r_agentName result |} in
  prompted w1 = prompted w /\
  chatSessions w1 !! chat_id (r_chat result) = Some cs /\
  chat_id (r_chat result) <> "" /\
  r_sessionId result = chat_id (r_chat result) /\
  (forall k entry, chatSessions w !! k = Some entry ->
                   chatSessions w1 !! k = Some entry).
Proof.
  intros Hok Hg cs. subst cs.
  destruct (getOrCreate_cases now agentName sessionId w)
    as [(e & _ & Hg')|[(agent & entry & _ & Hl & Hg')|(agent & _ & Hl & Hg')]];
    rewrite Hg' in Hg.
  - discriminate.
  - injection Hg as <- <-. cbn [r_chat r_agentName r_sessionId].
    rewrite (ok_id w Hok _ _ Hl). destruct entry as [c a].
    repeat split; eauto using or_else_nonempty.
  - injection Hg as <- <-.
    cbn [r_chat r_agentName r_sessionId new_entry entry_chat chat_id with_entry
         chatSessions prompted].
    repeat split; eauto using or_else_nonempty.
    + apply lookup_insert_eq.
    + intros k entry Hk. rewrite lookup_insert_ne; [done|congruence].
Qed.

Lemma message_dispatch env body w c m :
  registry_ok w ->
  prompted (serve (PostChatMessage env body) w).1 = (c, m) :: prompted w ->
  exists cs w1,
    serve (PostChatMessage env body) w = reply_of env body cs w1 /\
    entry_chat cs = c /\ m = text (req_message body) /\
    chat_id c <> "" /\
    chatSessions w1 !! chat_id c = Some cs /\
    (forall k entry, chatSessions w !! k = Some entry ->
                     chatSessions w1 !! k = Some entry).
Proof.
  intros Hok Hp.
  destruct (truthy (req_message body)) eqn:Hm;
    [|rewrite message_empty in Hp by done; by apply cons_neq_self in Hp].
  destruct (stored body w) eqn:Hst.
  - destruct (stored_inv _ _ Hst) as (sid & entry & Hb & Hne & Hl).
    rewrite (message_stored _ _ _ _ _ Hm Hb Hne Hl) in Hp |- *.
    unfold reply_of in Hp. simpl in Hp. injection Hp as <- <-.
    exists entry, w. rewrite (ok_id w Hok _ _ Hl). by repeat split.
  - destruct (truthy (req_agentName body)) eqn:Ha;
      [|rewrite message_missing in Hp by done; by apply cons_neq_self in Hp].
    rewrite message_agent in Hp |- * by done.
    destruct (getOrCreateChatSession _ _ _ w) as [w1 [result|e]] eqn:Hg.
    + destruct (getOrCreate_picks _ _ _ _ _ _ Hok Hg) as (Hpr & Hl & Hne & _ & Hkeep).
      unfold reply_of in Hp. simpl in Hp. rewrite Hpr in Hp.
      injection Hp as <- <-. eexists _, w1. by repeat split.
    + destruct (getOrCreate_cases (Date_now env 0) (text (req_agentName body))
                  (req_sessionId body) w)
        as [(e' & _ & Hg')|[(? & ? & _ & _ & Hg')|(? & _ & _ & Hg')]];
        rewrite Hg' in Hg; try discriminate.
      injection Hg as <- <-. by apply cons_neq_self in Hp.
Qed.

Lemma stream_dispatch env body w c m :
  registry_ok w ->
  prompted (serve (PostChatStream env body) w).1 = (c, m) :: prompted w ->
  exists cs w1,
    serve (PostChatStream env body) w = stream_of env body cs w1 /\
    entry_chat cs = c /\ m = text (req_message body).
Proof.
  intros Hok Hp.
  destruct (truthy (req_message body)) eqn:Hm;
    [|rewrite stream_empty in Hp by done; by apply cons_neq_self in Hp].
  destruct (stored body w) eqn:Hst.
  - destruct (stored_inv _ _ Hst) as (sid & entry & Hb & Hne & Hl).
    rewrite (stream_stored _ _ _ _ _ Hm Hb Hne Hl) in Hp |- *.
    unfold stream_of in Hp. simpl in Hp. injection Hp as <- <-.
    by exists entry, w.
  - destruct (truthy (req_agentName body)) eqn:Ha;
      [|rewrite stream_missing in Hp by done; by apply cons_neq_self in Hp].
    rewrite stream_agent in Hp |- * by done.
    destruct (getOrCreateChatSession _ _ _ w) as [w1 [result|e]] eqn:Hg.
    + destruct (getOrCreate_picks _ _ _ _ _ _ Hok Hg) as (Hpr & _).
      unfold stream_of in Hp. simpl in Hp. rewrite Hpr in Hp.
      injection Hp as <- <-. by eexists _, w1.
    + destruct (getOrCreate_cases (Date_now env 0) (text (req_agentName body))
                  (req_sessionId body) w)
        as [(e' & _ & Hg')|[(? & ? & _ & _ & Hg')|(? & _ & _ & Hg')]];
        rewrite Hg' in Hg; try discriminate.
      injection Hg as <- <-. by apply cons_neq_self in Hp.
Qed.

(** ** The frames of a stream *)

Lemma relay_res_finished events r :
  finished r = true -> sent (relay_res events r) = sent r.
Proof.
  revert r. induction events as [|ev rest IH]; intros r Hf; [reflexivity|].
  cbn [relay_res fold_left]. fold (relay_res rest (event_res ev r)).
  destruct ev; cbn [event_res]; unfold write_res; rewrite ?Hf;
    rewrite IH; reflexivity || done.
Qed.

Lemma relay_res_sent events r :
  finished r = false ->
  sent (relay_res events r) = (sent r ++ (Data <$> frames_of events))%list.
Proof.
  revert r. induction events as [|ev rest IH]; intros r Hf.
  - simpl. by rewrite app_nil_r.
  - cbn [relay_res fold_left]. fold (relay_res rest (event_res ev r)).
    destruct ev; cbn [event_res frames_of]; unfold write_res; rewrite ?Hf.
    + rewrite IH by done. simpl. by rewrite <- app_assoc.
    + rewrite IH by done. simpl. by rewrite <- app_assoc.
    + by rewrite relay_res_finished.
    + by rewrite relay_res_finished.
    + by apply IH.
Qed.

Lemma relay_res_finished_refused events r :
  finished r = true ->
  finished (relay_res events r) = true /\
  refused (relay_res events r) = (refused r ++ (Data <$> omap frame_of events))%list.
Proof.
  revert r. induction events as [|ev rest IH]; intros r Hf.
  - simpl. by rewrite app_nil_r.
  - cbn [relay_res fold_left]. fold (relay_res rest (event_res ev r)).
    destruct ev; cbn [event_res omap frame_of list_omap]; unfold write_res;
      rewrite ?Hf.
    1-4: match goal with
         | |- context [relay_res _ ?r'] =>
             destruct (IH r' eq_refl) as [-> ->]
         end; cbn [refused end_res fmap list_fmap]; split; [done|];
         by rewrite <- app_assoc.
    by apply IH.
Qed.

Lemma relay_res_open events r :
  finished r = false ->
  finished (relay_res events r) = existsb ends_stream events /\
  refused (relay_res events r) = (refused r ++ (Data <$> late_frames events))%list.
Proof.
  revert r. induction events as [|ev rest IH]; intros r Hf.
  - simpl. by rewrite app_nil_r.
  - cbn [relay_res fold_left]. fold (relay_res rest (event_res ev r)).
    destruct ev; cbn [event_res existsb ends_stream late_frames orb];
      unfold write_res; rewrite ?Hf.
    1-2: match goal with
         | |- context [relay_res _ ?r'] => by destruct (IH r' eq_refl) as [-> ->]
         end.
    1-2: match goal with
         | |- context [relay_res _ ?r'] =>
             by destruct (relay_res_finished_refused rest r' eq_refl) as [-> ->]
         end.
    by apply IH.
Qed.

Lemma frames_split events :
  omap frame_of events = (frames_of events ++ late_frames events)%list.
Proof.
  induction events as [|ev rest IH]; [reflexivity|].
  destruct ev; simpl; fold (omap frame_of rest); rewrite ?IH; reflexivity.
Qed.

Lemma event_frames_no_start events :
  Forall (fun f => is_start f = false) (omap frame_of events).
Proof.
  induction events as [|ev rest IH]; [constructor|].
  destruct ev; simpl; fold (omap frame_of rest); auto.
Qed.

Lemma frames_of_no_start events :
  Forall (fun f => is_start f = false) (frames_of events).
Proof.
  induction events as [|[] rest IH]; simpl; auto.
Qed.

Lemma frames_of_terminal_last events pre f post :
  frames_of events = (pre ++ f :: post)%list -> terminal f = true -> post = [].
Proof.
  revert pre. induction events as [|ev rest IH]; intros pre Heq Ht.
  - by destruct pre.
  - destruct ev; simpl in Heq.
    + destruct pre as [|g pre]; simpl in Heq; injection Heq as <- Heq;
        [discriminate|eauto].
    + destruct pre as [|g pre]; simpl in Heq; injection Heq as <- Heq;
        [discriminate|eauto].
    + destruct pre as [|g pre]; simpl in Heq; injection Heq as <- Heq;
        [done|by destruct pre].
    + destruct pre as [|g pre]; simpl in Heq; injection Heq as <- Heq;
        [done|by destruct pre].
    + eauto.
Qed.

Lemma frames_of_one_terminal events :
  length (List.filter terminal (frames_of events)) <= 1.
Proof.
  induction events as [|[] rest IH]; simpl; auto.
Qed.

(** * The claims *)

(** ** Dispatch to a stored session *)

(** C1.  A message whose [sessionId] is present in the registry is prompted
    on the chat handle stored under that id, whatever [agentName] the request
    carries; nothing is created; and when the prompt is answered the
    [agentName] of the JSON reply is the stored one. *)
Theorem message_uses_stored_session env body w sid entry :
  registry_ok w ->
  truthy (req_message body) = true ->
  req_sessionId body = Some sid ->
  chatSessions w !! sid = Some entry ->
  let out := serve (PostChatMessage env body) w in
  prompted out.1 = (entry_chat entry, text (req_message body)) :: prompted w /\
  chatSessions out.1 = chatSessions w /\
  constructed out.1 = constructed w /\
  forall response,
    prompt env (entry_chat entry) (text (req_message body)) = Fulfilled response ->
    out.2 = json_res 200
              (J_reply sid (entry_agentName entry) (text (req_message body))
                 response).
Proof.
  intros Hok Hm Hb Hl out. subst out.
  pose proof (ok_key w Hok _ _ Hl) as Hne.
  rewrite (message_stored _ _ _ _ _ Hm Hb Hne Hl). unfold reply_of.
  cbn [fst snd log_prompt chatSessions constructed prompted].
  repeat split. intros response ->. rewrite Hb. simpl.
  destruct (String.eqb_spec sid ""); [contradiction|reflexivity].
Qed.

Lemma message_uses_stored_session_witness :
  let out :=
    serve (PostChatMessage ticking_env
             (body_of (Some "s1") (Some "hi") (Some "crypto"))) server_s1 in
  prompted out.1 = [(entry_chat entry_s1, "hi")] /\
  out.2 = json_res 200 (J_reply "s1" "book" "hi" "hello").
Proof.
  destruct (message_uses_stored_session ticking_env
              (body_of (Some "s1") (Some "hi") (Some "crypto"))
              server_s1 "s1" entry_s1 server_s1_ok eq_refl eq_refl
              server_s1_entry) as (Hp & _ & _ & Hr).
  split; [exact Hp|exact (Hr "hello" eq_refl)].
Defined.

(** ** One handle per session id *)

(** C2, as stated, fails: [getOrCreateChatSession] resolves the agent name
    before it looks at the registry, so a second call with the same session
    id and an agent name outside the alias table throws instead of returning
    the handle the first call stored. *)
Lemma second_call_with_unknown_agent_throws :
  getOrCreateChatSession 1000 "book" (Some "s1") initial =
    (server_s1, Normal {| r_sessionId := "s1"; r_chat := entry_chat entry_s1;
                          r_agentName := "book" |}) /\
  getOrCreateChatSession 1001 "poet" (Some "s1") server_s1 =
    (server_s1, Throw {| err_message := "Unknown agent: poet" |}) /\
  ~ exists r2,
      (getOrCreateChatSession 1001 "poet" (Some "s1") server_s1).2 = Normal r2 /\
      r_chat r2 = entry_chat entry_s1.
Proof.
  assert (H : getOrCreateChatSession 1001 "poet" (Some "s1") server_s1 =
              (server_s1, Throw {| err_message := "Unknown agent: poet" |})).
  { by apply getOrCreate_unknown. }
  split; [vm_compute; reflexivity|]. split; [exact H|].
  rewrite H. intros (r2 & Hr & _). discriminate.
Qed.

(** C2, amended.  Once [getOrCreateChatSession] has returned for a session
    id, the entry it stored stays in the registry, with the same chat handle,
    through every later request other than a DELETE of that id.  A later call
    with the same id never constructs a handle and leaves the server state as
    it finds it: with an agent name that [getAgent] resolves it returns the
    chat handle the first call returned, and with any other agent name it
    throws the error of [getAgent]. *)
Theorem handle_constructed_once now1 agentName1 sid w w1 r1 rqs
    now2 agentName2 :
  sid <> "" ->
  getOrCreateChatSession now1 agentName1 (Some sid) w = (w1, Normal r1) ->
  ~ In (DeleteChatSession sid) rqs ->
  let w2 := serve_all rqs w1 in
  (exists entry, chatSessions w2 !! sid = Some entry /\
                 entry_chat entry = r_chat r1) /\
  (getOrCreateChatSession now2 agentName2 (Some sid) w2).1 = w2 /\
  (forall agent2, getAgent agentName2 = Normal agent2 ->
     exists r2,
       getOrCreateChatSession now2 agentName2 (Some sid) w2 = (w2, Normal r2) /\
       r_sessionId r2 = sid /\
       r_chat r2 = r_chat r1) /\
  (forall e, getAgent agentName2 = Throw e ->
     getOrCreateChatSession now2 agentName2 (Some sid) w2 = (w2, Throw e)).
Proof.
  intros Hne Hfirst Hnot w2.
  assert (Hkey : forall a now, or_else (Some sid) (session_key a now) = sid).
  { intros a now. simpl. destruct (String.eqb_spec sid ""); [contradiction|done]. }
  assert (exists entry, chatSessions w1 !! sid = Some entry /\
                        entry_chat entry = r_chat r1) as (entry & Hl1 & Hc1).
  { destruct (getOrCreate_cases now1 agentName1 (Some sid) w)
      as [(e & _ & Hg)|[(agent & entry & _ & Hl & Hg)|(agent & _ & Hl & Hg)]];
      rewrite Hg in Hfirst.
    - discriminate.
    - rewrite Hkey in Hl, Hfirst. injection Hfirst as <- <-. eauto.
    - rewrite !Hkey in Hfirst. injection Hfirst as <- <-.
      eexists. split; [apply lookup_insert_eq|done]. }
  pose proof (serve_all_keeps_entry rqs w1 sid entry Hl1 Hnot) as Hl2.
  fold w2 in Hl2.
  assert (Hknown : forall agent2, getAgent agentName2 = Normal agent2 ->
            getOrCreateChatSession now2 agentName2 (Some sid) w2 =
              (w2, Normal {| r_sessionId := sid; r_chat := entry_chat entry;
                             r_agentName := entry_agentName entry |})).
  { intros agent2 Ha2. rewrite <- (Hkey agentName2 now2) at 2.
    apply getOrCreate_existing with agent2; [done|]. by rewrite Hkey. }
  split; [eauto|]. split; [|split].
  - destruct (getAgent agentName2) as [agent2|e] eqn:Ha2.
    + by rewrite (Hknown agent2 eq_refl).
    + by rewrite (getOrCreate_unknown _ _ _ _ _ Ha2).
  - intros agent2 Ha2. eexists. split; [by apply (Hknown agent2)|]. by split.
  - intros e He. by apply getOrCreate_unknown.
Qed.

Lemma handle_constructed_once_witness :
  (exists r2,
     getOrCreateChatSession 2000 "BOOK-assistant" (Some "s1")
       (serve_all
          [PostChatMessage ticking_env (body_of (Some "s1") (Some "hi") None);
           PostChatStart ticking_env (body_of None None (Some "crypto"));
           DeleteChatSession "s2"] server_s1) =
       (serve_all
          [PostChatMessage ticking_env (body_of (Some "s1") (Some "hi") None);
           PostChatStart ticking_env (body_of None None (Some "crypto"));
           DeleteChatSession "s2"] server_s1, Normal r2) /\
     r_chat r2 = entry_chat entry_s1) /\
  getOrCreateChatSession 2000 "poet" (Some "s1")
    (serve_all
       [PostChatMessage ticking_env (body_of (Some "s1") (Some "hi") None);
        PostChatStart ticking_env (body_of None None (Some "crypto"));
        DeleteChatSession "s2"] server_s1) =
    (serve_all
       [PostChatMessage ticking_env (body_of (Some "s1") (Some "hi") None);
        PostChatStart ticking_env (body_of None None (Some "crypto"));
        DeleteChatSession "s2"] server_s1,
     Throw {| err_message := "Unknown agent: poet" |}).
Proof.
  assert (Hfirst : getOrCreateChatSession 1000 "book" (Some "s1") initial =
            (server_s1,
             Normal {| r_sessionId := "s1"; r_chat := entry_chat entry_s1;
                       r_agentName := "book" |}))
    by (vm_compute; reflexivity).
  assert (Hnot : ~ In (DeleteChatSession "s1")
            [PostChatMessage ticking_env (body_of (Some "s1") (Some "hi") None);
             PostChatStart ticking_env (body_of None None (Some "crypto"));
             DeleteChatSession "s2"]).
  { simpl. intros [H|[H|[H|[]]]]; discriminate. }
  split.
  - destruct (handle_constructed_once 1000 "book" "s1" initial server_s1 _ _
                2000 "BOOK-assistant" ltac:(discriminate) Hfirst Hnot)
      as (_ & _ & Hknown & _).
    destruct (Hknown BookAssistantAgent eq_refl) as (r2 & Hg & _ & Hc).
    exists r2. split; [exact Hg|exact Hc].
  - destruct (handle_constructed_once 1000 "book" "s1" initial server_s1 _ _
                2000 "poet" ltac:(discriminate) Hfirst Hnot)
      as (_ & _ & _ & Hthrow).
    exact (Hthrow {| err_message := "Unknown agent: poet" |} eq_refl).
Defined.

(** ** Order of the frames of a stream *)

(** C3, as stated, fails: the listeners are never removed and do not look
    at what was written before, so the relay goes on calling [res.write] for
    the events a stream emits after its first [End] or [Error].  For a
    stream that emits content, a tool call, [End], content and [Error], the
    relay writes six frames, two of them terminal and two of them after the
    end frame. *)
Lemma relay_writes_past_terminal_frame :
  let out :=
    serve (PostChatStream ticking_env (body_of (Some "s1") (Some "hi") None))
      server_s1 in
  issued out.2 =
    [Data (F_start "s1" "book"); Data (F_content "a");
     Data (F_tool_call (Some "price") None); Data F_end;
     Data (F_content "b"); Data (F_error "late")] /\
  length (List.filter terminal_chunk (issued out.2)) = 2 /\
  ~ length (List.filter terminal_chunk (issued out.2)) <= 1 /\
  ~ forall pre ch post,
      issued out.2 = (pre ++ ch :: post)%list -> terminal_chunk ch = true ->
      post = [].
Proof.
  split; [reflexivity|]. split; [reflexivity|]. split.
  - vm_compute. lia.
  - intros H.
    specialize (H [Data (F_start "s1" "book"); Data (F_content "a");
                   Data (F_tool_call (Some "price") None)]
                  (Data F_end) [Data (F_content "b"); Data (F_error "late")]
                  eq_refl eq_refl).
    discriminate.
Qed.

(** C3, amended.  When POST /api/chat/stream has asked a chat handle for a
    stream, the relay writes one start frame and then one frame for each
    event it listens to, in the order of the events, none of them a start
    frame.  What reaches the client is the start frame followed by the
    frames up to and including the first [End] or [Error]: at most one
    terminal frame, and nothing after it.  The frames of the later events
    are still written by the relay, after [res.end()], and are refused by
    the ended response.  When opening the stream fails, the relay writes the
    start frame and one error frame. *)
Theorem relay_frames_written_and_sent env body w c m :
  registry_ok w ->
  prompted (serve (PostChatStream env body) w).1 = (c, m) :: prompted w ->
  let out := serve (PostChatStream env body) w in
  exists sessionId agentName written reached late,
    issued out.2 = Data (F_start sessionId agentName) :: (Data <$> written) /\
    sent out.2 = Data (F_start sessionId agentName) :: (Data <$> reached) /\
    refused out.2 = (Data <$> late) /\
    written = (reached ++ late)%list /\
    match stream env c m with
    | Opened events =>
        written = omap frame_of events /\
        reached = frames_of events /\
        late = late_frames events
    | Refused e =>
        written = [F_error (err_message e)] /\ late = []
    end /\
    Forall (fun f => is_start f = false) written /\
    length (List.filter terminal reached) <= 1 /\
    forall pre f post,
      reached = (pre ++ f :: post)%list -> terminal f = true -> post = [].
Proof.
  intros Hok Hp out. subst out.
  destruct (stream_dispatch _ _ _ _ _ Hok Hp) as (cs & w1 & Hs & Hc & Hm).
  rewrite Hs. unfold stream_of, issued. cbn [snd]. rewrite Hc, <- Hm.
  destruct (stream env c m) as [events|e].
  - exists (or_else (req_sessionId body)
              (session_key (entry_agentName cs) (Date_now env 1))),
      (entry_agentName cs), (omap frame_of events), (frames_of events),
      (late_frames events).
    rewrite relay_res_sent by done.
    destruct (relay_res_open events
                (start_res
                   (or_else (req_sessionId body)
                      (session_key (entry_agentName cs) (Date_now env 1)))
                   (entry_agentName cs)) eq_refl) as [_ ->].
    cbn [sent refused start_res app].
    split; [by rewrite frames_split, fmap_app|]. split; [done|].
    split; [done|]. split; [apply frames_split|]. split; [done|].
    split; [apply event_frames_no_start|].
    split; [apply frames_of_one_terminal|apply frames_of_terminal_last].
  - exists (or_else (req_sessionId body)
              (session_key (entry_agentName cs) (Date_now env 1))),
      (entry_agentName cs), [F_error (err_message e)],
      [F_error (err_message e)], [].
    split; [reflexivity|]. split; [reflexivity|]. split; [reflexivity|].
    split; [reflexivity|]. split; [done|]. split; [by repeat constructor|].
    split; [simpl; lia|].
    intros [|g [|g' pre]] f post Heq _; simpl in Heq; by injection Heq.
Qed.

Lemma relay_frames_written_and_sent_witness :
  exists sessionId agentName written reached late,
    issued (serve (PostChatStream ticking_env
                     (body_of None (Some "price of BTC") (Some "crypto")))
              server_s1).2 =
      Data (F_start sessionId agentName) :: (Data <$> written) /\
    sent (serve (PostChatStream ticking_env
                   (body_of None (Some "price of BTC") (Some "crypto")))
            server_s1).2 =
      Data (F_start sessionId agentName) :: (Data <$> reached) /\
    refused (serve (PostChatStream ticking_env
                      (body_of None (Some "price of BTC") (Some "crypto")))
               server_s1).2 = (Data <$> late) /\
    written = (reached ++ late)%list /\
    (written = [F_content "a"; F_tool_call (Some "price") None; F_end;
                F_content "b"; F_error "late"] /\
     reached = [F_content "a"; F_tool_call (Some "price") None; F_end] /\
     late = [F_content "b"; F_error "late"]) /\
    Forall (fun f => is_start f = false) written /\
    length (List.filter terminal reached) <= 1 /\
    forall pre f post,
      reached = (pre ++ f :: post)%list -> terminal f = true -> post = [].
Proof.
  exact (relay_frames_written_and_sent ticking_env
           (body_of None (Some "price of BTC") (Some "crypto")) server_s1
           {| chat_agent := CryptoAssistantAgent;
              chat_id := "session-crypto-1000";
              chat_persist := true; chat_ref := 1 |}
           "price of BTC" server_s1_ok eq_refl).
Defined.

(** What the relay asked of the transport after the response had ended is
    refused there: the listeners themselves do not stop at a terminal
    event. *)
Lemma relay_writes_after_end_are_refused :
  refused (serve (PostChatStream ticking_env
                    (body_of None (Some "price of BTC") (Some "crypto")))
             server_s1).2 =
    [Data (F_content "b"); Data (F_error "late")].
Proof. reflexivity. Qed.

(** ** Validation of a message request *)

(** C4.  POST /api/chat/message answers 400 "Message is required" whenever
    the message is absent or empty, whatever the other fields; with a message
    but no non-empty [sessionId] of an existing session and no non-empty
    [agentName] it answers 400 "Either sessionId or agentName is required";
    in both cases the server state, registry included, is left as it was. *)
Theorem message_validation env body w :
  (truthy (req_message body) = false ->
   serve (PostChatMessage env body) w =
     (w, json_res 400 (J_error "Message is required" None))) /\
  (truthy (req_message body) = true ->
   (forall sid, req_sessionId body = Some sid -> sid <> "" ->
                chatSessions w !! sid = None) ->
   truthy (req_agentName body) = false ->
   serve (PostChatMessage env body) w =
     (w, json_res 400
           (J_error "Either sessionId or agentName is required" None))).
Proof.
  split.
  - apply message_empty.
  - intros Hm Hs Ha. apply message_missing; [done| |done].
    destruct (stored body w) eqn:Hst; [|done].
    destruct (stored_inv _ _ Hst) as (sid & entry & Hb & Hne & Hl).
    rewrite (Hs sid Hb Hne) in Hl. discriminate.
Qed.

Lemma message_validation_witness :
  serve (PostChatMessage ticking_env (body_of (Some "s1") (Some "") (Some "book")))
    server_s1 =
    (server_s1, json_res 400 (J_error "Message is required" None)) /\
  serve (PostChatMessage ticking_env (body_of (Some "s7") (Some "hi") None))
    server_s1 =
    (server_s1,
     json_res 400 (J_error "Either sessionId or agentName is required" None)).
Proof.
  split.
  - exact (proj1 (message_validation ticking_env
                    (body_of (Some "s1") (Some "") (Some "book")) server_s1)
             eq_refl).
  - apply (proj2 (message_validation ticking_env
                    (body_of (Some "s7") (Some "hi") None) server_s1)).
    + reflexivity.
    + intros sid [= <-] _. vm_compute. reflexivity.
    + reflexivity.
Defined.

(** ** Agent resolution *)

(** C5.  [getAgent] resolves a name that is, up to letter casing, an alias of
    the table to that alias's agent, so the aliases of one agent and all
    their casings give the same handle; every other name makes it throw
    "Unknown agent: <name>" with the name as given, and
    [getOrCreateChatSession] then throws the same error and leaves the
    server, registry included, as it was.  Letter casing is that of
    [toLowerCase]: the ASCII capitals and the Kelvin sign for k. *)
Theorem getAgent_resolves_aliases name :
  (forall alias agent,
     In (alias, agent) alias_table -> recased name alias ->
     getAgent name = Normal agent) /\
  ((forall alias agent, In (alias, agent) alias_table -> ~ recased name alias) ->
   getAgent name = Throw {| err_message := "Unknown agent: " +:+ name |} /\
   forall now sessionId w,
     getOrCreateChatSession now name sessionId w =
       (w, Throw {| err_message := "Unknown agent: " +:+ name |})).
Proof.
  split.
  - intros alias agent Hin Hre. apply getAgent_alias with alias; [done|].
    destruct (alias_table_lowercase alias agent Hin) as [Hascii Hlow].
    by rewrite (recased_toLowerCase _ _ Hascii Hre).
  - intros Hnot.
    assert (Hu : getAgent name =
                 Throw {| err_message := "Unknown agent: " +:+ name |}).
    { apply getAgent_unknown. intros alias agent Hin Heq.
      apply (Hnot alias agent Hin).
      destruct (alias_table_lowercase alias agent Hin) as [Hascii _].
      by apply recased_lowered. }
    split; [exact Hu|]. intros now sessionId w.
    by apply getOrCreate_unknown.
Qed.

Lemma getAgent_resolves_aliases_witness :
  getAgent "BoOk-Assistant" = Normal BookAssistantAgent /\
  getAgent (String "B" (String "o" (String "o" (kelvin_then "")))) =
    Normal BookAssistantAgent /\
  getAgent "unknown-agent" =
    Throw {| err_message := "Unknown agent: unknown-agent" |} /\
  getOrCreateChatSession 1000 "unknown-agent" (Some "s9") server_s1 =
    (server_s1, Throw {| err_message := "Unknown agent: unknown-agent" |}).
Proof.
  split; [|split].
  - apply (proj1 (getAgent_resolves_aliases "BoOk-Assistant"))
      with "book-assistant"; [simpl; auto|apply recased_BoOk].
  - apply (proj1 (getAgent_resolves_aliases
                    (String "B" (String "o" (String "o" (kelvin_then ""))))))
      with "book"; [simpl; auto|apply recased_booK].
  - assert (Hnot : forall alias agent,
              In (alias, agent) alias_table -> ~ recased "unknown-agent" alias).
    { intros alias agent Hin. simpl in Hin.
      destruct Hin as [[= <- <-]|[[= <- <-]|[[= <- <-]|[[= <- <-]|[]]]]];
        apply not_recased_head; discriminate. }
    destruct (proj2 (getAgent_resolves_aliases "unknown-agent") Hnot)
      as [Hu Hg].
    split; [exact Hu|exact (Hg 1000%Z (Some "s9") server_s1)].
Defined.

(** ** An existing session and the agent name passed in *)

(** C6, as stated, fails: [getOrCreateChatSession] resolves the agent name
    on its first line, before it looks at the registry, so for a session id
    that is present and an agent name outside the alias table it throws
    instead of returning the entry. *)
Lemma getOrCreate_existing_unknown_agent_throws :
  chatSessions server_s1 !! "s1" = Some entry_s1 /\
  getOrCreateChatSession 1000 "unknown-agent" (Some "s1") server_s1 =
    (server_s1, Throw {| err_message := "Unknown agent: unknown-agent" |}) /\
  ~ exists r,
      (getOrCreateChatSession 1000 "unknown-agent" (Some "s1") server_s1).2 =
        Normal r.
Proof.
  assert (H : getOrCreateChatSession 1000 "unknown-agent" (Some "s1") server_s1 =
              (server_s1,
               Throw {| err_message := "Unknown agent: unknown-agent" |})).
  { by apply getOrCreate_unknown. }
  split; [exact server_s1_entry|]. split; [exact H|].
  rewrite H. intros [r Hr]. discriminate.
Qed.

(** C6, amended.  For a session id present in the registry and an agent name
    that [getAgent] resolves, [getOrCreateChatSession] returns the id, the
    chat handle of the existing entry and the agent name stored in it, not
    the one passed in, and changes nothing. *)
Theorem getOrCreate_existing_keeps_binding now agentName agent sid w entry :
  registry_ok w ->
  chatSessions w !! sid = Some entry ->
  getAgent agentName = Normal agent ->
  getOrCreateChatSession now agentName (Some sid) w =
    (w, Normal {| r_sessionId := sid;
                  r_chat := entry_chat entry;
                  r_agentName := entry_agentName entry |}).
Proof.
  intros Hok Hl Ha. pose proof (ok_key w Hok _ _ Hl) as Hne.
  assert (Hkey : or_else (Some sid) (session_key agentName now) = sid).
  { simpl. destruct (String.eqb_spec sid ""); [contradiction|done]. }
  rewrite <- Hkey at 2. apply getOrCreate_existing with agent; [done|].
  by rewrite Hkey.
Qed.

Lemma getOrCreate_existing_keeps_binding_witness :
  getOrCreateChatSession 1000 "crypto" (Some "s1") server_s1 =
    (server_s1, Normal {| r_sessionId := "s1";
                          r_chat := entry_chat entry_s1;
                          r_agentName := "book" |}).
Proof.
  exact (getOrCreate_existing_keeps_binding 1000 "crypto" CryptoAssistantAgent
           "s1" server_s1 entry_s1 server_s1_ok server_s1_entry eq_refl).
Defined.

(** ** Failures of the stream route before the upgrade *)

(** C7, at the failing input.  POST /api/chat/stream with a message and an
    agent name outside the alias table: [getOrCreateChatSession] throws
    before [writeHead], the [catch] block writes an error frame on a response
    whose head goes out with the default status 200, and no 400 is sent. *)
Theorem stream_unknown_agent_gets_frame env w :
  serve (PostChatStream env (body_of None (Some "hi") (Some "unknown-agent"))) w =
    (w, {| statusCode := 200;
           headers := [];
           headersSent := true;
           sent := [Data (F_error "Unknown agent: unknown-agent")];
           finished := true;
           refused := [] |}).
Proof.
  rewrite stream_agent by reflexivity.
  cbn [body_of req_agentName req_sessionId text default].
  rewrite (getOrCreate_unknown _ "unknown-agent" None w
             {| err_message := "Unknown agent: unknown-agent" |} eq_refl).
  reflexivity.
Qed.

(** The same request on POST /api/chat/start is answered 400. *)
Lemma start_unknown_agent_gets_400 env w :
  serve (PostChatStart env (body_of None None (Some "unknown-agent"))) w =
    (w, json_res 400 (J_error "Unknown agent: unknown-agent" None)).
Proof.
  rewrite start_agent by reflexivity.
  cbn [body_of req_agentName req_sessionId text default].
  rewrite (getOrCreate_unknown _ "unknown-agent" None w
             {| err_message := "Unknown agent: unknown-agent" |} eq_refl).
  reflexivity.
Qed.

(** The two validation failures of the stream route are answered 400, with
    no frame. *)
Lemma stream_validation env body w :
  (truthy (req_message body) = false ->
   serve (PostChatStream env body) w =
     (w, json_res 400 (J_error "Message is required" None))) /\
  (truthy (req_message body) = true -> stored body w = false ->
   truthy (req_agentName body) = false ->
   serve (PostChatStream env body) w =
     (w, json_res 400
           (J_error "Either sessionId or agentName is required" None))).
Proof. split; [apply stream_empty|apply stream_missing]. Qed.

(** ** Upstream failure on the message route *)

(** C8.  When POST /api/chat/message has prompted a chat handle and the
    prompt fails, the answer is 500 "Failed to process message" with the
    failure's message as [details]; every entry the registry held before the
    request is still there unchanged, and the handle that was prompted is
    still stored under its session id, so that the next message for that id
    is prompted on the same handle. *)
Theorem upstream_failure_keeps_session env body w c m e :
  registry_ok w ->
  prompted (serve (PostChatMessage env body) w).1 = (c, m) :: prompted w ->
  prompt env c m = Rejected e ->
  let out := serve (PostChatMessage env body) w in
  out.2 = json_res 500
            (J_error "Failed to process message" (Some (err_message e))) /\
  (forall k entry, chatSessions w !! k = Some entry ->
                   chatSessions out.1 !! k = Some entry) /\
  exists entry,
    chatSessions out.1 !! chat_id c = Some entry /\
    entry_chat entry = c /\
    forall env' body',
      truthy (req_message body') = true ->
      req_sessionId body' = Some (chat_id c) ->
      prompted (serve (PostChatMessage env' body') out.1).1 =
        (c, text (req_message body')) :: prompted out.1.
Proof.
  intros Hok Hp Hrej out. subst out.
  destruct (message_dispatch _ _ _ _ _ Hok Hp)
    as (cs & w1 & Hs & Hc & Hmsg & Hne & Hl & Hkeep).
  rewrite Hs. unfold reply_of. cbn [fst snd log_prompt chatSessions].
  rewrite Hc, <- Hmsg, Hrej. split; [done|]. split; [done|].
  exists cs. split; [done|]. split; [done|].
  intros env' body' Hm' Hb'.
  erewrite message_stored; [|done|exact Hb'|done|exact Hl].
  unfold reply_of. simpl. by rewrite Hc.
Qed.

Lemma upstream_failure_keeps_session_witness :
  let out :=
    serve (PostChatMessage failing_env (body_of (Some "s1") (Some "hi") None))
      server_s1 in
  out.2 = json_res 500
            (J_error "Failed to process message" (Some "model overloaded")) /\
  chatSessions out.1 !! "s1" = Some entry_s1.
Proof.
  destruct (upstream_failure_keeps_session failing_env
              (body_of (Some "s1") (Some "hi") None) server_s1
              (entry_chat entry_s1) "hi" {| err_message := "model overloaded" |}
              server_s1_ok eq_refl eq_refl) as (Hr & Hkeep & _).
  split; [exact Hr|exact (Hkeep "s1" entry_s1 server_s1_entry)].
Defined.

(** ** Deleting a session *)

(** C9.  DELETE /api/chat/sessions/:sessionId for an id present in the
    registry answers 200 "Session deleted successfully" and removes that
    entry and no other: the registry has one entry fewer, the id is absent
    afterwards and every other id is looked up as before.  For an absent id
    it answers 404 "Session not found", throws nothing and leaves the server
    state as it was. *)
Theorem delete_session_outcome sessionId w :
  (forall entry, chatSessions w !! sessionId = Some entry ->
     let out := serve (DeleteChatSession sessionId) w in
     out.2 = json_res 200 (J_deleted "Session deleted successfully") /\
     S (size (chatSessions out.1)) = size (chatSessions w) /\
     chatSessions out.1 !! sessionId = None /\
     forall k, k <> sessionId -> chatSessions out.1 !! k = chatSessions w !! k) /\
  (chatSessions w !! sessionId = None ->
     serve (DeleteChatSession sessionId) w =
       (w, json_res 404 (J_error "Session not found" None)) /\
     handler (DeleteChatSession sessionId) {| srv := w; res := fresh_res |} =
       ({| srv := w; res := json_res 404 (J_error "Session not found" None) |},
        Normal tt)).
Proof.
  split.
  - intros entry Hl out. subst out. rewrite (delete_present _ _ _ Hl).
    cbn [fst snd without chatSessions]. split; [done|]. split; [|split].
    + rewrite map_size_delete, Hl.
      assert (size (chatSessions w) <> 0); [|simpl; lia].
      apply map_size_non_empty_iff. intros He. rewrite He in Hl.
      by rewrite lookup_empty in Hl.
    + apply lookup_delete_eq.
    + intros k Hk. by apply lookup_delete_ne.
  - intros Hl. split; [by apply delete_absent|].
    handler_unfold. simpl. rewrite Hl. reflexivity.
Qed.

Lemma delete_session_outcome_witness :
  (serve (DeleteChatSession "s1") server_s1).2 =
    json_res 200 (J_deleted "Session deleted successfully") /\
  chatSessions (serve (DeleteChatSession "s1") server_s1).1 !! "s1" = None /\
  serve (DeleteChatSession "s2") server_s1 =
    (server_s1, json_res 404 (J_error "Session not found" None)).
Proof.
  destruct (proj1 (delete_session_outcome "s1" server_s1) entry_s1
              server_s1_entry) as (Hr & _ & Hgone & _).
  destruct (proj2 (delete_session_outcome "s2" server_s1)) as [Habs _].
  - vm_compute. reflexivity.
  - split; [exact Hr|]. split; [exact Hgone|exact Habs].
Defined.

(** ** The session id reported for a new session *)

(** For a request without [sessionId] that creates a session, the registry
    key is built from the clock reading of line 36 and the reported
    [sessionId] from a second reading (line 103); they agree exactly when
    the two readings do. *)
Lemma new_session_key_and_reported_id env body w agent response :
  truthy (req_message body) = true ->
  truthy (req_sessionId body) = false ->
  truthy (req_agentName body) = true ->
  getAgent (text (req_agentName body)) = Normal agent ->
  let a := text (req_agentName body) in
  let key := session_key a (Date_now env 0) in
  let reported := session_key a (Date_now env 1) in
  chatSessions w !! key = None ->
  prompt env (entry_chat (new_entry agent key a w)) (text (req_message body)) =
    Fulfilled response ->
  let out := serve (PostChatMessage env body) w in
  out.2 = json_res 200 (J_reply reported a (text (req_message body)) response) /\
  chatSessions out.1 = <[key := new_entry agent key a w]> (chatSessions w) /\
  (reported = key <-> Date_now env 1 = Date_now env 0).
Proof.
  intros Hm Hs Ha Hag a key reported Hfresh Hpr out. subst out.
  assert (Hst : stored body w = false) by (unfold stored; by rewrite Hs).
  rewrite message_agent by done.
  pose proof (getOrCreate_fresh (Date_now env 0) a (req_sessionId body) w agent
                Hag) as Hg.
  rewrite (or_else_falsy _ _ Hs) in Hg. fold key in Hg.
  specialize (Hg Hfresh). cbv zeta in Hg. fold a. rewrite Hg.
  unfold reply_of. cbn [fst snd r_chat r_agentName entry_chat entry_agentName].
  rewrite (or_else_falsy _ _ Hs).
  change (entry_chat (new_entry agent key a w)) with
    {| chat_agent := agent; chat_id := key; chat_persist := true;
       chat_ref := constructed w |} in Hpr.
  cbn [new_entry entry_chat]. rewrite Hpr.
  split; [reflexivity|]. split; [reflexivity|].
  split; [apply session_key_inj|].
  intros H. unfold reported, key. by rewrite H.
Qed.

(** C10, at the failing input.  POST /api/chat/message with
    [{ agentName: "book", message: "hi" }] on the initial server, the clock
    reading 1000 when the session is created and 1001 when the reply is
    built: the handle is stored under "session-book-1000", the reply reports
    "session-book-1001", and the registry has no entry under the reported
    id.  POST /api/chat/stream does the same in its start frame. *)
Theorem reported_session_id_is_not_the_key :
  let body := body_of None (Some "hi") (Some "book") in
  let out := serve (PostChatMessage ticking_env body) initial in
  let out' := serve (PostChatStream ticking_env body) initial in
  out.2 = json_res 200 (J_reply "session-book-1001" "book" "hi" "hello") /\
  chatSessions out.1 !! "session-book-1001" = None /\
  chatSessions out.1 !! "session-book-1000" =
    Some {| entry_chat := {| chat_agent := BookAssistantAgent;
                             chat_id := "session-book-1000";
                             chat_persist := true; chat_ref := 0 |};
            entry_agentName := "book" |} /\
  head (sent out'.2) = Some (Data (F_start "session-book-1001" "book")) /\
  chatSessions out'.1 !! "session-book-1001" = None /\
  is_Some (chatSessions out'.1 !! "session-book-1000").
Proof. vm_compute. repeat split. eauto. Qed.

(** The start route reports the key itself. *)
Lemma start_reports_the_key :
  let out :=
    serve (PostChatStart ticking_env (body_of None None (Some "book"))) initial in
  out.2 = json_res 200
            (J_started "session-book-1000" "book"
               "Chat session started with book") /\
  is_Some (chatSessions out.1 !! "session-book-1000").
Proof. vm_compute. split; [reflexivity|eauto]. Qed.

(** * Further properties *)

(** ** Reachable states *)

Lemma registry_step_persist rq w w' :
  registry_step rq w w' ->
  (forall k e, chatSessions w !! k = Some e -> chat_persist (entry_chat e) = true) ->
  forall k e, chatSessions w' !! k = Some e -> chat_persist (entry_chat e) = true.
Proof.
  intros [Hs _|key agent an _ _ _ Hs _|key _ _ Hs _] Hp k e; rewrite Hs.
  - apply Hp.
  - destruct (decide (key = k)) as [->|Hne].
    + rewrite lookup_insert_eq. by intros [= <-].
    + rewrite lookup_insert_ne by done. apply Hp.
  - intros H. apply lookup_delete_Some in H as [_ H]. by eapply Hp.
Qed.

Lemma serve_all_persist rqs w :
  (forall k e, chatSessions w !! k = Some e -> chat_persist (entry_chat e) = true) ->
  forall k e, chatSessions (serve_all rqs w) !! k = Some e ->
              chat_persist (entry_chat e) = true.
Proof.
  revert w. induction rqs as [|rq rest IH]; intros w Hp; simpl; [done|].
  apply IH. eapply registry_step_persist; [apply serve_registry_step|done].
Qed.

(** X1.  In every state the server reaches from its initial state, whatever
    the requests were, an entry of the registry sits under a non-empty key,
    its chat handle was constructed with that key as [id] and with
    [persist: true] on the agent that the stored agent name resolves to, and
    two entries under different keys hold different handles. *)
Theorem reachable_entries_well_formed rqs k e :
  chatSessions (serve_all rqs initial) !! k = Some e ->
  k <> "" /\
  chat_id (entry_chat e) = k /\
  chat_persist (entry_chat e) = true /\
  getAgent (entry_agentName e) = Normal (chat_agent (entry_chat e)) /\
  chat_ref (entry_chat e) < constructed (serve_all rqs initial) /\
  forall k' e', chatSessions (serve_all rqs initial) !! k' = Some e' ->
                k' <> k -> chat_ref (entry_chat e') <> chat_ref (entry_chat e).
Proof.
  intros Hl.
  pose proof (serve_all_ok rqs initial registry_ok_initial) as Hok.
  split; [by eapply ok_key|]. split; [by eapply ok_id|].
  split.
  { eapply (serve_all_persist rqs initial); [|exact Hl].
    intros k0 e0. simpl. by rewrite lookup_empty. }
  split; [by eapply ok_agent|]. split; [by eapply ok_ref|].
  intros k' e' Hl' Hne Href. apply Hne. by eapply (ok_distinct _ Hok).
Qed.

Lemma reachable_entries_well_formed_witness :
  chat_id (entry_chat entry_s1) = "s1" /\
  chat_persist (entry_chat entry_s1) = true /\
  getAgent "book" = Normal BookAssistantAgent.
Proof.
  destruct (reachable_entries_well_formed
              [PostChatStart ticking_env (body_of (Some "s1") None (Some "book"))]
              "s1" entry_s1 server_s1_entry) as (_ & Hi & Hp & Ha & _).
  split; [exact Hi|]. split; [exact Hp|exact Ha].
Defined.

(** X2.  A request constructs a chat handle exactly when it adds an entry to
    the registry: either it constructs none and the registry does not grow,
    or it constructs one and the registry grows by that one entry. *)
Theorem handle_constructed_iff_entry_added rq w :
  let w' := (serve rq w).1 in
  (constructed w' = constructed w /\
   size (chatSessions w') <= size (chatSessions w)) \/
  (constructed w' = S (constructed w) /\
   size (chatSessions w') = S (size (chatSessions w))).
Proof.
  intros w'. subst w'.
  destruct (serve_registry_step rq w)
    as [Hs Hc|key agent an _ Hnone _ Hs Hc|key _ _ Hs Hc]; rewrite Hs, Hc.
  - left. split; [done|lia].
  - right. split; [done|]. by apply map_size_insert_None.
  - left. split; [done|]. rewrite map_size_delete.
    destruct (chatSessions w !! key); simpl; lia.
Qed.

(** ** The start route *)

Lemma start_known env body w agent :
  truthy (req_agentName body) = true ->
  getAgent (text (req_agentName body)) = Normal agent ->
  exists entry,
    let sid := or_else (req_sessionId body)
                 (session_key (text (req_agentName body)) (Date_now env 0)) in
    (serve (PostChatStart env body) w).2 =
      json_res 200
        (J_started sid (entry_agentName entry)
           ("Chat session started with " +:+ entry_agentName entry)) /\
    chatSessions (serve (PostChatStart env body) w).1 !! sid = Some entry /\
    prompted (serve (PostChatStart env body) w).1 = prompted w.
Proof.
  intros Ha Hag. rewrite start_agent by done.
  destruct (getOrCreate_cases (Date_now env 0) (text (req_agentName body))
              (req_sessionId body) w)
    as [(e & He & _)|[(ag & entry & _ & Hl & ->)|(ag & _ & Hl & ->)]].
  - congruence.
  - exists entry. cbn [fst snd r_sessionId r_agentName]. by repeat split.
  - exists (new_entry ag
              (or_else (req_sessionId body)
                 (session_key (text (req_agentName body)) (Date_now env 0)))
              (text (req_agentName body)) w).
    cbn [fst snd r_sessionId r_agentName with_entry chatSessions prompted
         new_entry entry_agentName].
    split; [reflexivity|]. split; [apply lookup_insert_eq|done].
Qed.

(** X3.  POST /api/chat/start answers 400 "Agent name is required" when
    [agentName] is absent or empty and 400 with the message of [getAgent]
    when the name is unknown, both without touching the server state; for a
    known name it answers 200 with a [sessionId] under which the registry
    then holds an entry, and with that entry's agent name. *)
Theorem start_outcome env body w :
  (truthy (req_agentName body) = false ->
   serve (PostChatStart env body) w =
     (w, json_res 400 (J_error "Agent name is required" None))) /\
  (truthy (req_agentName body) = true ->
   forall e, getAgent (text (req_agentName body)) = Throw e ->
   serve (PostChatStart env body) w =
     (w, json_res 400 (J_error (err_message e) None))) /\
  (truthy (req_agentName body) = true ->
   forall agent, getAgent (text (req_agentName body)) = Normal agent ->
   exists entry,
     let sid := or_else (req_sessionId body)
                  (session_key (text (req_agentName body)) (Date_now env 0)) in
     (serve (PostChatStart env body) w).2 =
       json_res 200
         (J_started sid (entry_agentName entry)
            ("Chat session started with " +:+ entry_agentName entry)) /\
     chatSessions (serve (PostChatStart env body) w).1 !! sid = Some entry /\
     prompted (serve (PostChatStart env body) w).1 = prompted w).
Proof.
  split; [apply start_missing|]. split.
  - intros Ha e He. rewrite start_agent by done.
    by rewrite (getOrCreate_unknown _ _ _ _ _ He).
  - intros Ha agent Hag. by apply start_known with agent.
Qed.

Lemma start_outcome_witness :
  serve (PostChatStart ticking_env (body_of (Some "s1") None (Some ""))) server_s1 =
    (server_s1, json_res 400 (J_error "Agent name is required" None)) /\
  serve (PostChatStart ticking_env (body_of None None (Some "poet"))) server_s1 =
    (server_s1, json_res 400 (J_error "Unknown agent: poet" None)) /\
  exists entry,
    (serve (PostChatStart ticking_env (body_of None None (Some "Crypto")))
       server_s1).2 =
      json_res 200
        (J_started "session-Crypto-1000" (entry_agentName entry)
           ("Chat session started with " +:+ entry_agentName entry)) /\
    chatSessions
      (serve (PostChatStart ticking_env (body_of None None (Some "Crypto")))
         server_s1).1 !! "session-Crypto-1000" = Some entry.
Proof.
  split; [|split].
  - exact (proj1 (start_outcome ticking_env
                    (body_of (Some "s1") None (Some "")) server_s1) eq_refl).
  - exact (proj1 (proj2 (start_outcome ticking_env
                           (body_of None None (Some "poet")) server_s1))
             eq_refl {| err_message := "Unknown agent: poet" |} eq_refl).
  - destruct (proj2 (proj2 (start_outcome ticking_env
                              (body_of None None (Some "Crypto")) server_s1))
                eq_refl CryptoAssistantAgent eq_refl)
      as (entry & Hr & Hl & _).
    exists entry. split; [exact Hr|exact Hl].
Defined.



(** ** The message route beyond the stored session *)

Lemma not_stored body w :
  (forall sid, req_sessionId body = Some sid -> sid <> "" ->
               chatSessions w !! sid = None) ->
  stored body w = false.
Proof.
  intros Hs. destruct (stored body w) eqn:Hst; [|done].
  destruct (stored_inv _ _ Hst) as (sid & entry & Hb & Hne & Hl).
  rewrite (Hs sid Hb Hne) in Hl. discriminate.
Qed.

(** X5.  POST /api/chat/message with a message, no session of the registry
    named and an agent name outside the alias table answers 500 "Failed to
    process message" with "Unknown agent: <name>" as [details] (where
    POST /api/chat/start answers 400); nothing is prompted and the server
    state stays as it was. *)
Theorem message_unknown_agent_is_500 env body w e :
  truthy (req_message body) = true ->
  (forall sid, req_sessionId body = Some sid -> sid <> "" ->
               chatSessions w !! sid = None) ->
  truthy (req_agentName body) = true ->
  getAgent (text (req_agentName body)) = Throw e ->
  serve (PostChatMessage env body) w =
    (w, json_res 500
          (J_error "Failed to process message" (Some (err_message e)))).
Proof.
  intros Hm Hs Ha He. rewrite message_agent by auto using not_stored.
  by rewrite (getOrCreate_unknown _ _ _ _ _ He).
Qed.

Lemma message_unknown_agent_is_500_witness :
  serve (PostChatMessage ticking_env (body_of (Some "s7") (Some "hi") (Some "poet")))
    server_s1 =
    (server_s1,
     json_res 500
       (J_error "Failed to process message" (Some "Unknown agent: poet"))).
Proof.
  apply (message_unknown_agent_is_500 ticking_env
           (body_of (Some "s7") (Some "hi") (Some "poet")) server_s1
           {| err_message := "Unknown agent: poet" |}).
  - reflexivity.
  - intros sid [= <-] _. vm_compute. reflexivity.
  - reflexivity.
  - reflexivity.
Defined.

(** X6.  A client can choose the id of a new session: POST /api/chat/message
    with a non-empty [sessionId] the registry does not hold and a known agent
    name stores a freshly constructed handle under exactly that id, bound to
    the agent name as the client wrote it, prompts that handle, and reports
    that same id in its reply. *)
Theorem message_creates_session_under_given_id env body w sid agent :
  truthy (req_message body) = true ->
  req_sessionId body = Some sid -> sid <> "" ->
  chatSessions w !! sid = None ->
  truthy (req_agentName body) = true ->
  getAgent (text (req_agentName body)) = Normal agent ->
  let created := new_entry agent sid (text (req_agentName body)) w in
  let out := serve (PostChatMessage env body) w in
  chatSessions out.1 = <[sid := created]> (chatSessions w) /\
  constructed out.1 = S (constructed w) /\
  prompted out.1 = (entry_chat created, text (req_message body)) :: prompted w /\
  forall response,
    prompt env (entry_chat created) (text (req_message body)) = Fulfilled response ->
    out.2 = json_res 200
              (J_reply sid (text (req_agentName body)) (text (req_message body))
                 response).
Proof.
  intros Hm Hb Hne Hl Ha Hag created out. subst created out.
  assert (Hkey : or_else (req_sessionId body)
                   (session_key (text (req_agentName body)) (Date_now env 0)) = sid).
  { rewrite Hb. simpl. destruct (String.eqb_spec sid ""); [contradiction|done]. }
  assert (Hst : stored body w = false).
  { apply not_stored. intros sid' Hb' _. congruence. }
  rewrite message_agent by done.
  pose proof (getOrCreate_fresh (Date_now env 0) (text (req_agentName body))
                (req_sessionId body) w agent Hag) as Hg.
  rewrite Hkey in Hg. rewrite (Hg Hl).
  unfold reply_of.
  cbn [fst snd log_prompt chatSessions constructed prompted with_entry
       entry_chat entry_agentName r_chat r_agentName new_entry].
  repeat split. intros response Hr.
  cbn [new_entry entry_chat] in Hr. rewrite Hr, Hb. simpl.
  destruct (String.eqb_spec sid ""); [contradiction|reflexivity].
Qed.

Lemma message_creates_session_under_given_id_witness :
  let out :=
    serve (PostChatMessage ticking_env
             (body_of (Some "mine") (Some "hi") (Some "CRYPTO"))) server_s1 in
  chatSessions out.1 =
    <[ "mine" := new_entry CryptoAssistantAgent "mine" "CRYPTO" server_s1 ]>
      (chatSessions server_s1) /\
  out.2 = json_res 200 (J_reply "mine" "CRYPTO" "hi" "hello").
Proof.
  destruct (message_creates_session_under_given_id ticking_env
              (body_of (Some "mine") (Some "hi") (Some "CRYPTO")) server_s1
              "mine" CryptoAssistantAgent eq_refl eq_refl
              ltac:(discriminate) ltac:(vm_compute; reflexivity) eq_refl eq_refl)
    as (Hc & _ & _ & Hr).
  split; [exact Hc|exact (Hr "hello" eq_refl)].
Defined.

(** ** Session ids made by [getOrCreateChatSession] *)

Lemma getOrCreate_ok now agentName sessionId w :
  registry_ok w ->
  registry_ok (getOrCreateChatSession now agentName sessionId w).1.
Proof.
  apply registry_step_ok with GetChatSessions, getOrCreate_step.
Qed.

Lemma getOrCreate_returns now agentName sessionId w agent :
  getAgent agentName = Normal agent ->
  exists w1 r,
    getOrCreateChatSession now agentName sessionId w = (w1, Normal r) /\
    r_sessionId r = or_else sessionId (session_key agentName now).
Proof.
  intros Hag.
  destruct (getOrCreate_cases now agentName sessionId w)
    as [(e & He & _)|[(ag & entry & _ & _ & ->)|(ag & _ & _ & ->)]];
    [congruence|eauto..].
Qed.

(** X7.  Two calls of [getOrCreateChatSession] without a session id, for
    the same agent name, at two different clock readings give two different
    session ids and two different chat handles, and the registry holds both
    sessions afterwards. *)
Theorem sessions_at_different_times_are_distinct now1 now2 agentName agent
    sid1 sid2 w :
  registry_ok w ->
  getAgent agentName = Normal agent ->
  truthy sid1 = false -> truthy sid2 = false ->
  now1 <> now2 ->
  exists w1 r1 w2 r2,
    getOrCreateChatSession now1 agentName sid1 w = (w1, Normal r1) /\
    getOrCreateChatSession now2 agentName sid2 w1 = (w2, Normal r2) /\
    r_sessionId r1 <> r_sessionId r2 /\
    chat_ref (r_chat r1) <> chat_ref (r_chat r2) /\
    (exists e1, chatSessions w2 !! r_sessionId r1 = Some e1 /\
                entry_chat e1 = r_chat r1) /\
    (exists e2, chatSessions w2 !! r_sessionId r2 = Some e2 /\
                entry_chat e2 = r_chat r2).
Proof.
  intros Hok Hag Hs1 Hs2 Hnow.
  destruct (getOrCreate_returns now1 agentName sid1 w agent Hag)
    as (w1 & r1 & Hg1 & Hk1).
  destruct (getOrCreate_returns now2 agentName sid2 w1 agent Hag)
    as (w2 & r2 & Hg2 & Hk2).
  rewrite or_else_falsy in Hk1, Hk2 by done.
  pose proof (getOrCreate_ok now1 agentName sid1 w Hok) as Hok1.
  rewrite Hg1 in Hok1. cbn [fst] in Hok1.
  pose proof (getOrCreate_ok now2 agentName sid2 w1 Hok1) as Hok2.
  rewrite Hg2 in Hok2. cbn [fst] in Hok2.
  destruct (getOrCreate_picks _ _ _ _ _ _ Hok Hg1) as (_ & Hl1 & _ & Hid1 & _).
  destruct (getOrCreate_picks _ _ _ _ _ _ Hok1 Hg2) as (_ & Hl2 & _ & Hid2 & Hkeep).
  apply Hkeep in Hl1. rewrite <- Hid1 in Hl1. rewrite <- Hid2 in Hl2.
  assert (Hne : r_sessionId r1 <> r_sessionId r2).
  { rewrite Hk1, Hk2. intros H. by apply session_key_inj in H. }
  exists w1, r1, w2, r2. repeat split; try done.
  - intros Href. apply Hne. by eapply (ok_distinct _ Hok2).
  - eauto.
  - eauto.
Qed.

Lemma sessions_at_different_times_are_distinct_witness :
  exists w1 r1 w2 r2,
    getOrCreateChatSession 1000 "book" None server_s1 = (w1, Normal r1) /\
    getOrCreateChatSession 1001 "book" (Some "") w1 = (w2, Normal r2) /\
    r_sessionId r1 <> r_sessionId r2 /\
    chat_ref (r_chat r1) <> chat_ref (r_chat r2).
Proof.
  destruct (sessions_at_different_times_are_distinct 1000 1001 "book"
              BookAssistantAgent None (Some "") server_s1 server_s1_ok
              eq_refl eq_refl eq_refl ltac:(discriminate))
    as (w1 & r1 & w2 & r2 & H1 & H2 & H3 & H4 & _).
  exists w1, r1, w2, r2. repeat split; assumption.
Defined.

(** X8.  Two calls of [getOrCreateChatSession] without a session id, for
    the same spelling of the agent name, at the same clock reading share one
    session: the second call returns what the first returned, constructs no
    handle and leaves the registry as the first call left it. *)
Theorem sessions_in_the_same_millisecond_coincide now agentName sid1 sid2 w w1 r1 :
  truthy sid1 = false -> truthy sid2 = false ->
  getOrCreateChatSession now agentName sid1 w = (w1, Normal r1) ->
  getOrCreateChatSession now agentName sid2 w1 = (w1, Normal r1).
Proof.
  intros Hs1 Hs2 Hg.
  destruct (getOrCreate_cases now agentName sid1 w)
    as [(e & _ & Hg')|[(ag & entry & Hag & Hl & Hg')|(ag & Hag & Hl & Hg')]];
    rewrite Hg' in Hg; [discriminate|..]; injection Hg as <- <-;
    rewrite (or_else_falsy _ _ Hs1) in *.
  - rewrite (getOrCreate_existing now agentName sid2 w ag entry Hag);
      rewrite (or_else_falsy _ _ Hs2); done.
  - rewrite (getOrCreate_existing now agentName sid2 _ ag
               (new_entry ag (session_key agentName now) agentName w) Hag);
      rewrite (or_else_falsy _ _ Hs2); [reflexivity|apply lookup_insert_eq].
Qed.

Lemma sessions_in_the_same_millisecond_coincide_witness :
  getOrCreateChatSession 1000 "book" None
    (getOrCreateChatSession 1000 "book" None initial).1 =
  getOrCreateChatSession 1000 "book" None initial.
Proof.
  pose proof (sessions_in_the_same_millisecond_coincide 1000 "book" None None
                initial (getOrCreateChatSession 1000 "book" None initial).1
                {| r_sessionId := "session-book-1000";
                   r_chat := {| chat_agent := BookAssistantAgent;
                                chat_id := "session-book-1000";
                                chat_persist := true; chat_ref := 0 |};
                   r_agentName := "book" |} eq_refl eq_refl eq_refl) as H.
  exact H.
Defined.

(** X9.  An empty [sessionId] counts as no [sessionId]: each of the three
    POST routes treats a request whose [sessionId] is the empty string
    exactly as the same request without the field, in the server state it
    leaves and in what it sends. *)
Theorem empty_sessionId_is_absent env body w :
  serve (PostChatStart env (set_sessionId (Some "") body)) w =
    serve (PostChatStart env (set_sessionId None body)) w /\
  serve (PostChatMessage env (set_sessionId (Some "") body)) w =
    serve (PostChatMessage env (set_sessionId None body)) w /\
  serve (PostChatStream env (set_sessionId (Some "") body)) w =
    serve (PostChatStream env (set_sessionId None body)) w.
Proof.
  assert (Hg : forall now a w0,
            getOrCreateChatSession now a (Some "") w0 =
            getOrCreateChatSession now a None w0) by reflexivity.
  assert (Hst : stored (set_sessionId (Some "") body) w = false) by reflexivity.
  assert (Hst' : stored (set_sessionId None body) w = false) by reflexivity.
  split; [|split].
  - destruct (truthy (req_agentName body)) eqn:Ha.
    + rewrite !start_agent by done. cbn [set_sessionId req_agentName req_sessionId].
      by rewrite Hg.
    + by rewrite !start_missing by done.
  - destruct (truthy (req_message body)) eqn:Hm;
      [|by rewrite !message_empty by done].
    destruct (truthy (req_agentName body)) eqn:Ha.
    + rewrite !message_agent by done.
      cbn [set_sessionId req_agentName req_sessionId]. by rewrite Hg.
    + by rewrite !message_missing by done.
  - destruct (truthy (req_message body)) eqn:Hm;
      [|by rewrite !stream_empty by done].
    destruct (truthy (req_agentName body)) eqn:Ha.
    + rewrite !stream_agent by done.
      cbn [set_sessionId req_agentName req_sessionId]. by rewrite Hg.
    + by rewrite !stream_missing by done.
Qed.

(** ** Deleting and creating again *)



(** X11.  Starting a session under an id the registry does not hold and
    then deleting that id gives back the registry as it was; the DELETE
    answers 200. *)
Theorem start_then_delete_restores_registry env body w sid agent :
  req_sessionId body = Some sid -> sid <> "" ->
  chatSessions w !! sid = None ->
  truthy (req_agentName body) = true ->
  getAgent (text (req_agentName body)) = Normal agent ->
  let out := serve (DeleteChatSession sid) (serve (PostChatStart env body) w).1 in
  chatSessions out.1 = chatSessions w /\
  out.2 = json_res 200 (J_deleted "Session deleted successfully").
Proof.
  intros Hb Hne Hl Ha Hag out. subst out.
  assert (Hkey : or_else (req_sessionId body)
                   (session_key (text (req_agentName body)) (Date_now env 0)) = sid).
  { rewrite Hb. simpl. destruct (String.eqb_spec sid ""); [contradiction|done]. }
  rewrite start_agent by done.
  pose proof (getOrCreate_fresh (Date_now env 0) (text (req_agentName body))
                (req_sessionId body) w agent Hag) as Hg.
  rewrite Hkey in Hg. rewrite (Hg Hl). cbn [fst].
  erewrite delete_present;
    [|cbn [with_entry chatSessions]; apply lookup_insert_eq].
  cbn [fst snd without with_entry chatSessions]. split; [|done].
  by apply delete_insert_id.
Qed.

Lemma start_then_delete_restores_registry_witness :
  chatSessions
    (serve (DeleteChatSession "s2")
       (serve (PostChatStart ticking_env (body_of (Some "s2") None (Some "book")))
          server_s1).1).1 = chatSessions server_s1.
Proof.
  exact (proj1 (start_then_delete_restores_registry ticking_env
                  (body_of (Some "s2") None (Some "book")) server_s1 "s2"
                  BookAssistantAgent eq_refl ltac:(discriminate)
                  ltac:(vm_compute; reflexivity) eq_refl eq_refl)).
Defined.

(** ** The listings *)

(** X12.  GET /api/chat/sessions answers 200 and leaves the server state as
    it was; its listing has one row per registry entry, no session id twice,
    and a row [(sessionId, agentName)] is listed exactly when the registry
    holds an entry under [sessionId] whose stored agent name is
    [agentName]. *)
Theorem sessions_listing_matches_registry w :
  exists rows,
    serve GetChatSessions w = (w, json_res 200 (J_sessions rows)) /\
    length rows = size (chatSessions w) /\
    NoDup rows.*1 /\
    forall sid name,
      (sid, name) ∈ rows <->
      exists entry, chatSessions w !! sid = Some entry /\
                    entry_agentName entry = name.
Proof.
  exists (map_to_list (entry_agentName <$> chatSessions w)).
  split; [by destruct w|]. split.
  { by rewrite length_map_to_list, map_size_fmap. }
  split; [apply NoDup_fst_map_to_list|].
  intros sid name. rewrite elem_of_map_to_list, lookup_fmap.
  destruct (chatSessions w !! sid) as [entry|]; simpl; split.
  - intros [= <-]. eauto.
  - intros (entry' & [= <-] & <-). done.
  - discriminate.
  - intros (entry' & H & _). discriminate.
Qed.

(** X13.  Every id GET /api/agents lists is a name [getAgent] accepts, the
    listed ids resolve to different agents, and each agent [getAgent] can
    return is the agent of a listed id. *)
Theorem listed_agents_resolve :
  Forall (fun info => exists agent, getAgent (info_id info) = Normal agent)
    agents_listing /\
  NoDup (getAgent <$> (info_id <$> agents_listing)) /\
  (forall agent, exists info,
     In info agents_listing /\ getAgent (info_id info) = Normal agent).
Proof.
  split; [|split].
  - repeat constructor; simpl; eauto.
  - simpl. apply NoDup_cons. split; [|apply NoDup_singleton].
    intros H. apply list_elem_of_singleton in H. discriminate.
  - intros [].
    + exists {| info_id := "book"; info_name := "Book Assistant";
                info_description := "Helpful assistant for book-related queries" |}.
      split; [simpl; auto|reflexivity].
    + exists {| info_id := "crypto"; info_name := "Crypto Assistant";
                info_description := "Assistant for cryptocurrency information" |}.
      split; [simpl; auto|reflexivity].
Qed.

(** ** Every request is answered *)

Lemma relay_res_head events r :
  statusCode (relay_res events r) = statusCode r /\
  headers (relay_res events r) = headers r /\
  (headersSent r = true -> headersSent (relay_res events r) = true).
Proof.
  revert r. induction events as [|ev rest IH]; intros r; [done|].
  cbn [relay_res fold_left]. fold (relay_res rest (event_res ev r)).
  destruct (IH (event_res ev r)) as (Hs & Hh & Hsent). rewrite Hs, Hh.
  assert (Hw : forall f r0, statusCode (write_res f r0) = statusCode r0 /\
                            headers (write_res f r0) = headers r0 /\
                            (headersSent r0 = true ->
                             headersSent (write_res f r0) = true)).
  { intros f r0. unfold write_res. by destruct (finished r0). }
  destruct ev; cbn [event_res end_res statusCode headers headersSent];
    try (destruct (Hw (F_content content) r) as (? & ? & ?));
    try (destruct (Hw (F_tool_call name arguments) r) as (? & ? & ?));
    try (destruct (Hw F_end r) as (? & ? & ?));
    try (destruct (Hw (F_error (err_message error)) r) as (? & ? & ?));
    repeat split; auto; intros; apply Hsent; cbn [event_res end_res headersSent];
    auto.
Qed.

(** The answers a request can get: one JSON body under one of the status
    codes of its route, or, on the stream route, what the [catch] block
    writes before the head, or the start frame followed by the relay or by
    the [catch] block. *)
Lemma serve_response rq w :
  (exists code j, (serve rq w).2 = json_res code j /\ In code (status_codes rq)) \/
  (is_stream_route rq = true /\
   ((exists e, (serve rq w).2 = caught_res e fresh_res) \/
    (exists sid an events,
       (serve rq w).2 = relay_res events (start_res sid an)) \/
    (exists sid an e, (serve rq w).2 = caught_res e (start_res sid an)))).
Proof.
  destruct rq as [env body|env body|env body| |sid].
  - left. destruct (truthy (req_agentName body)) eqn:Ha.
    + rewrite start_agent by done.
      destruct (getOrCreateChatSession _ _ _ w) as [w' [r|e]];
        eexists _, _; (split; [reflexivity|simpl; auto]).
    + rewrite start_missing by done.
      eexists _, _; (split; [reflexivity|simpl; auto]).
  - left.
    assert (Hreply : forall cs w1, exists code j,
              (reply_of env body cs w1).2 = json_res code j /\
              In code (status_codes (PostChatMessage env body))).
    { intros cs w1. unfold reply_of. cbn [snd].
      destruct (prompt env (entry_chat cs) (text (req_message body)));
        eexists _, _; (split; [reflexivity|simpl; auto]). }
    destruct (truthy (req_message body)) eqn:Hm;
      [|rewrite message_empty by done;
        eexists _, _; (split; [reflexivity|simpl; auto])].
    destruct (stored body w) eqn:Hst.
    + destruct (stored_inv _ _ Hst) as (sid & entry & Hb & Hne & Hl).
      rewrite (message_stored _ _ _ _ _ Hm Hb Hne Hl). apply Hreply.
    + destruct (truthy (req_agentName body)) eqn:Ha;
        [|rewrite message_missing by done;
          eexists _, _; (split; [reflexivity|simpl; auto])].
      rewrite message_agent by done.
      destruct (getOrCreateChatSession _ _ _ w) as [w' [r|e]];
        [apply Hreply|eexists _, _; (split; [reflexivity|simpl; auto])].
  - assert (Hstream : forall cs w1,
              (exists sid an events,
                 (stream_of env body cs w1).2 = relay_res events (start_res sid an)) \/
              (exists sid an e,
                 (stream_of env body cs w1).2 = caught_res e (start_res sid an))).
    { intros cs w1. unfold stream_of. cbn [snd].
      destruct (stream env (entry_chat cs) (text (req_message body)));
        [left|right]; eauto. }
    destruct (truthy (req_message body)) eqn:Hm;
      [|left; rewrite stream_empty by done;
        eexists _, _; (split; [reflexivity|simpl; auto])].
    destruct (stored body w) eqn:Hst.
    + destruct (stored_inv _ _ Hst) as (sid & entry & Hb & Hne & Hl).
      rewrite (stream_stored _ _ _ _ _ Hm Hb Hne Hl).
      right. split; [done|]. right. apply Hstream.
    + destruct (truthy (req_agentName body)) eqn:Ha;
        [|left; rewrite stream_missing by done;
          eexists _, _; (split; [reflexivity|simpl; auto])].
      rewrite stream_agent by done.
      destruct (getOrCreateChatSession _ _ _ w) as [w' [r|e]];
        right; (split; [done|]); [right; apply Hstream|left; eauto].
  - left. eexists _, _. split; [reflexivity|simpl; auto].
  - left. destruct (chatSessions w !! sid) as [entry|] eqn:Hl.
    + rewrite (delete_present _ _ _ Hl).
      eexists _, _; (split; [reflexivity|simpl; auto]).
    + rewrite (delete_absent _ _ Hl).
      eexists _, _; (split; [reflexivity|simpl; auto]).
Qed.

(** X14.  Every request is answered with a status code of its route: the
    head of the response has gone out when the handler is done, with 200 or
    400 on the start and stream routes, 200, 400 or 500 on the message
    route, 200 on the session listing and 200 or 404 on DELETE. *)
Theorem every_request_is_answered rq w :
  headersSent (serve rq w).2 = true /\
  In (statusCode (serve rq w).2) (status_codes rq).
Proof.
  destruct (serve_response rq w)
    as [(code & j & -> & Hin)
       |[Hsr [(e & ->)|[(sid & an & events & ->)|(sid & an & e & ->)]]]].
  - done.
  - destruct rq; try discriminate. simpl. auto.
  - destruct (relay_res_head events (start_res sid an)) as (-> & _ & Hs).
    split; [by apply Hs|]. destruct rq; try discriminate. simpl. auto.
  - destruct rq; try discriminate. simpl. auto.
Qed.

(** X15.  On every route but the stream route the answer is one JSON body
    and the response is ended: no such request is left without an answer or
    gets a second one. *)
Theorem json_routes_send_one_body rq w :
  is_stream_route rq = false ->
  exists j,
    sent (serve rq w).2 = [Body j] /\
    finished (serve rq w).2 = true /\
    refused (serve rq w).2 = [].
Proof.
  intros Hrq.
  destruct (serve_response rq w) as [(code & j & -> & _)|[Hsr _]];
    [by exists j|congruence].
Qed.

Lemma json_routes_send_one_body_witness :
  exists j,
    sent (serve (PostChatMessage failing_env
                   (body_of (Some "s1") (Some "hi") None)) server_s1).2 = [Body j] /\
    finished (serve (PostChatMessage failing_env
                       (body_of (Some "s1") (Some "hi") None)) server_s1).2 = true.
Proof.
  destruct (json_routes_send_one_body
              (PostChatMessage failing_env (body_of (Some "s1") (Some "hi") None))
              server_s1 eq_refl) as (j & Hs & Hf & _).
  exists j. split; [exact Hs|exact Hf].
Defined.

(** X16.  No handler lets an exception escape: whatever the request, the
    registry and the answers of the agent runtime, each handler runs to its
    end, every throw inside it being caught by its own [catch] block. *)
Theorem no_exception_escapes rq w :
  (handler rq {| srv := w; res := fresh_res |}).2 = Normal tt.
Proof.
  destruct rq as [env body|env body|env body| |sid]; cbn [handler].
  - unfold post_chat_start, try_catch. cbv zeta.
    destruct (truthy (req_agentName body)); cbn [negb]; [|reflexivity].
    unfold bind, on_server. cbn [srv res].
    destruct (getOrCreateChatSession _ _ _ w) as [w' [r|e]]; reflexivity.
  - unfold post_chat_message, try_catch. cbv zeta.
    destruct (truthy (req_message body)) eqn:Hm; cbn [negb]; [|reflexivity].
    destruct (stored body w) eqn:Hst.
    + destruct (stored_inv _ _ Hst) as (sid & entry & Hb & Hne & Hl).
      rewrite (with_chatSession_stored _ _ _ _ _ _ _ _ Hb Hne Hl).
      handler_unfold. simpl.
      destruct (prompt env (entry_chat entry) (text (req_message body)));
        reflexivity.
    + destruct (truthy (req_agentName body)) eqn:Ha.
      * rewrite (with_chatSession_agent _ _ _ _ _ _ Hst Ha).
        destruct (getOrCreateChatSession _ _ _ w) as [w' [r|e]]; [|reflexivity].
        handler_unfold. simpl.
        destruct (prompt env (r_chat r) (text (req_message body)));
          reflexivity.
      * rewrite (with_chatSession_missing _ _ _ _ _ Hst Ha). reflexivity.
  - unfold post_chat_stream. unfold bind at 1. unfold try_catch. cbv zeta.
    destruct (truthy (req_message body)) eqn:Hm; cbn [negb]; [|reflexivity].
    destruct (stored body w) eqn:Hst.
    + destruct (stored_inv _ _ Hst) as (sid & entry & Hb & Hne & Hl).
      rewrite (with_chatSession_stored _ _ _ _ _ _ _ _ Hb Hne Hl).
      rewrite stream_body_eq.
      destruct (stream env (entry_chat entry) (text (req_message body)));
        [by rewrite relay_eq|reflexivity].
    + destruct (truthy (req_agentName body)) eqn:Ha.
      * rewrite (with_chatSession_agent _ _ _ _ _ _ Hst Ha).
        destruct (getOrCreateChatSession _ _ _ w) as [w' [r|e]]; [|reflexivity].
        rewrite stream_body_eq. cbn [entry_chat].
        destruct (stream env (r_chat r) (text (req_message body)));
          [by rewrite relay_eq|reflexivity].
      * rewrite (with_chatSession_missing _ _ _ _ _ Hst Ha). reflexivity.
  - reflexivity.
  - handler_unfold. simpl. destruct (chatSessions w !! sid); reflexivity.
Qed.

(** ** The stream route *)

(** X17.  Once POST /api/chat/stream has opened a stream, the response is
    ended exactly when the stream emits an [End] or an [Error] event: a
    stream that emits neither leaves the response open.  The frames of the
    events that follow the first [End] or [Error] are the writes the
    transport refuses; none of them is sent. *)
Theorem stream_ends_with_terminal_event env body w c m events :
  registry_ok w ->
  prompted (serve (PostChatStream env body) w).1 = (c, m) :: prompted w ->
  stream env c m = Opened events ->
  finished (serve (PostChatStream env body) w).2 = existsb ends_stream events /\
  refused (serve (PostChatStream env body) w).2 = (Data <$> late_frames events).
Proof.
  intros Hok Hp Hev.
  destruct (stream_dispatch _ _ _ _ _ Hok Hp) as (cs & w1 & Hs & Hc & Hm).
  rewrite Hs. unfold stream_of. cbn [snd]. rewrite Hc, <- Hm, Hev.
  by destruct (relay_res_open events
                 (start_res
                    (or_else (req_sessionId body)
                       (session_key (entry_agentName cs) (Date_now env 1)))
                    (entry_agentName cs)) eq_refl) as [-> ->].
Qed.

Lemma stream_ends_with_terminal_event_witness :
  finished (serve (PostChatStream ticking_env
                     (body_of (Some "s1") (Some "hi") None)) server_s1).2 = true /\
  refused (serve (PostChatStream ticking_env
                    (body_of (Some "s1") (Some "hi") None)) server_s1).2 =
    [Data (F_content "b"); Data (F_error "late")].
Proof.
  exact (stream_ends_with_terminal_event ticking_env
           (body_of (Some "s1") (Some "hi") None) server_s1
           (entry_chat entry_s1) "hi"
           [Content "a"; ToolCall (Some "price") None; End;
            Content "b"; Error {| err_message := "late" |}]
           server_s1_ok eq_refl eq_refl).
Defined.

(** X18.  POST /api/chat/stream with a [sessionId] the registry holds
    upgrades the response (status 200 with the event-stream headers), opens
    the stream on the stored chat handle whatever [agentName] the request
    carries, creates nothing, and sends as its first frame the start frame
    with that [sessionId] and the stored agent name. *)
Theorem stream_uses_stored_session env body w sid entry :
  registry_ok w ->
  truthy (req_message body) = true ->
  req_sessionId body = Some sid ->
  chatSessions w !! sid = Some entry ->
  let out := serve (PostChatStream env body) w in
  prompted out.1 = (entry_chat entry, text (req_message body)) :: prompted w /\
  chatSessions out.1 = chatSessions w /\
  constructed out.1 = constructed w /\
  statusCode out.2 = 200 /\
  headers out.2 = event_stream_headers /\
  head (sent out.2) = Some (Data (F_start sid (entry_agentName entry))).
Proof.
  intros Hok Hm Hb Hl out. subst out.
  pose proof (ok_key w Hok _ _ Hl) as Hne.
  rewrite (stream_stored _ _ _ _ _ Hm Hb Hne Hl). unfold stream_of.
  cbn [fst snd log_prompt chatSessions constructed prompted].
  assert (Hkey : or_else (req_sessionId body)
                   (session_key (entry_agentName entry) (Date_now env 1)) = sid).
  { rewrite Hb. simpl. destruct (String.eqb_spec sid ""); [contradiction|done]. }
  rewrite Hkey. repeat split.
  - destruct (stream env (entry_chat entry) (text (req_message body)));
      [apply relay_res_head|reflexivity].
  - destruct (stream env (entry_chat entry) (text (req_message body)));
      [apply relay_res_head|reflexivity].
  - destruct (stream env (entry_chat entry) (text (req_message body)));
      [by rewrite relay_res_sent|reflexivity].
Qed.

Lemma stream_uses_stored_session_witness :
  let out :=
    serve (PostChatStream failing_env
             (body_of (Some "s1") (Some "hi") (Some "crypto"))) server_s1 in
  prompted out.1 = [(entry_chat entry_s1, "hi")] /\
  head (sent out.2) = Some (Data (F_start "s1" "book")).
Proof.
  destruct (stream_uses_stored_session failing_env
              (body_of (Some "s1") (Some "hi") (Some "crypto")) server_s1
              "s1" entry_s1 server_s1_ok eq_refl eq_refl server_s1_entry)
    as (Hp & _ & _ & _ & _ & Hh).
  split; [exact Hp|exact Hh].
Defined.

(** ** What the agent runtime is asked *)

Lemma truthy_text (v : option string) : truthy v = true -> text v <> "".
Proof. intros H. by destruct (truthy_Some v H) as (s & -> & Hs). Qed.

Lemma getOrCreate_prompted now agentName sessionId w :
  prompted (getOrCreateChatSession now agentName sessionId w).1 = prompted w.
Proof.
  by destruct (getOrCreate_cases now agentName sessionId w)
    as [(e & _ & ->)|[(ag & entry & _ & _ & ->)|(ag & _ & _ & ->)]].
Qed.

(** X19.  The agent runtime is prompted at most once per request, only by
    the message and stream routes, never with an empty message, and only on
    a chat handle that the registry holds, under the handle's own id, when
    the request is done. *)
Theorem prompts_reach_registered_handles rq w :
  registry_ok w ->
  prompted (serve rq w).1 = prompted w \/
  exists c m entry,
    prompted (serve rq w).1 = (c, m) :: prompted w /\
    m <> "" /\
    chatSessions (serve rq w).1 !! chat_id c = Some entry /\
    entry_chat entry = c /\
    (exists env body, rq = PostChatMessage env body \/ rq = PostChatStream env body).
Proof.
  intros Hok.
  assert (Hpick : forall env body w1 r,
            getOrCreateChatSession (Date_now env 0) (text (req_agentName body))
              (req_sessionId body) w = (w1, Normal r) ->
            prompted w1 = prompted w /\
            chatSessions w1 !! chat_id (r_chat r) =
              Some {| entry_chat := r_chat r; entry_agentName := r_agentName r |}).
  { intros env body w1 r Hg.
    destruct (getOrCreate_picks _ _ _ _ _ _ Hok Hg) as (Hp & Hl & _). done. }
  destruct rq as [env body|env body|env body| |sid].
  - left. destruct (truthy (req_agentName body)) eqn:Ha;
      [|by rewrite start_missing].
    rewrite start_agent by done.
    pose proof (getOrCreate_prompted (Date_now env 0) (text (req_agentName body))
                  (req_sessionId body) w) as Hp.
    by destruct (getOrCreateChatSession _ _ _ w) as [w' [r|e]].
  - destruct (truthy (req_message body)) eqn:Hm;
      [|left; by rewrite message_empty].
    pose proof (truthy_text _ Hm) as Hmne.
    destruct (stored body w) eqn:Hst.
    + destruct (stored_inv _ _ Hst) as (sid & entry & Hb & Hne & Hl).
      rewrite (message_stored _ _ _ _ _ Hm Hb Hne Hl).
      right. exists (entry_chat entry), (text (req_message body)), entry.
      unfold reply_of. cbn [fst log_prompt chatSessions prompted].
      rewrite (ok_id w Hok _ _ Hl). repeat split; eauto.
    + destruct (truthy (req_agentName body)) eqn:Ha;
        [|left; by rewrite message_missing].
      rewrite message_agent by done.
      pose proof (getOrCreate_prompted (Date_now env 0) (text (req_agentName body))
                    (req_sessionId body) w) as Hp.
      destruct (getOrCreateChatSession _ _ _ w) as [w' [r|e]] eqn:Hg;
        [|by left].
      destruct (Hpick env body w' r Hg) as [Hp' Hl].
      right. eexists _, _, _. unfold reply_of.
      cbn [fst log_prompt chatSessions prompted entry_chat].
      rewrite Hp'. split; [reflexivity|]. repeat split; eauto.
  - destruct (truthy (req_message body)) eqn:Hm;
      [|left; by rewrite stream_empty].
    pose proof (truthy_text _ Hm) as Hmne.
    destruct (stored body w) eqn:Hst.
    + destruct (stored_inv _ _ Hst) as (sid & entry & Hb & Hne & Hl).
      rewrite (stream_stored _ _ _ _ _ Hm Hb Hne Hl).
      right. exists (entry_chat entry), (text (req_message body)), entry.
      unfold stream_of. cbn [fst log_prompt chatSessions prompted].
      rewrite (ok_id w Hok _ _ Hl). repeat split; eauto.
    + destruct (truthy (req_agentName body)) eqn:Ha;
        [|left; by rewrite stream_missing].
      rewrite stream_agent by done.
      pose proof (getOrCreate_prompted (Date_now env 0) (text (req_agentName body))
                    (req_sessionId body) w) as Hp.
      destruct (getOrCreateChatSession _ _ _ w) as [w' [r|e]] eqn:Hg;
        [|by left].
      destruct (Hpick env body w' r Hg) as [Hp' Hl].
      right. eexists _, _, _. unfold stream_of.
      cbn [fst log_prompt chatSessions prompted entry_chat].
      rewrite Hp'. split; [reflexivity|]. repeat split; eauto.
  - by left.
  - left. destruct (chatSessions w !! sid) as [entry|] eqn:Hl.
    + by rewrite (delete_present _ _ _ Hl).
    + by rewrite (delete_absent _ _ Hl).
Qed.

Lemma prompts_reach_registered_handles_witness :
  exists c m entry,
    prompted (serve (PostChatStream ticking_env
                       (body_of None (Some "hi") (Some "crypto"))) server_s1).1 =
      [(c, m)] /\
    chatSessions (serve (PostChatStream ticking_env
                           (body_of None (Some "hi") (Some "crypto")))
                    server_s1).1 !! chat_id c = Some entry /\
    entry_chat entry = c.
Proof.
  destruct (prompts_reach_registered_handles
              (PostChatStream ticking_env (body_of None (Some "hi") (Some "crypto")))
              server_s1 server_s1_ok)
    as [Hsame|(c & m & entry & Hp & _ & Hl & Hc & _)].
  - exfalso. vm_compute in Hsame. discriminate.
  - exists c, m, entry. split; [exact Hp|]. split; [exact Hl|exact Hc].
Defined.
